(** * combinehtml: the asset-inlining pipelines of [app.py]

    A shallow embedding of [combine_html_from_zip], [fetch_and_inline],
    [fetch_and_combine_url] and [index], together with the parts of the
    Python runtime, [os.walk], and the BeautifulSoup tree API they rely on.

    Conventions of the embedding:
    - a Python call that may raise returns a [result]; [try/except Exception]
      is a [match] on it;
    - the parsed document (a mutable [BeautifulSoup] object) is passed
      through the code as a value: each mutation returns the new tree;
    - a path is the list of its components, so [os.path.join root file] is
      [root ++ [file]];
    - values that differ from one run to the next ([tempfile.mkdtemp],
      [tempfile.mktemp], the order in which the event loop completes the
      gathered tasks) are explicit arguments;
    - logging is not modelled. *)

From Stdlib Require Import List String Ascii ZArith Lia Bool Arith.
Import ListNotations.
Set Warnings "-register-all".
Local Open Scope string_scope.
Local Open Scope list_scope.

(** ** Python runtime: exceptions, strings, name lookup *)

Module Py.

(** An exception object: its class name and [str(e)].  Every exception
    of the model is a subclass of [Exception]. *)
Record exn := Exception { exn_class : string; exn_str : string }.

Inductive result (A : Type) : Type :=
| Ok (a : A)
| Raise (e : exn).
Arguments Ok {A} a.
Arguments Raise {A} e.

Definition bind {A B} (c : result A) (k : A -> result B) : result B :=
  match c with
  | Ok a => k a
  | Raise e => Raise e
  end.

(** [try: body  except Exception as e: handler e] *)
Definition try_except {A} (body : result A) (handler : exn -> A) : A :=
  match body with
  | Ok a => a
  | Raise e => handler e
  end.

(** [s.endswith(suffix)] *)
Definition endswith (s suffix : string) : bool :=
  let n := String.length s in
  let k := String.length suffix in
  (k <=? n)%nat && String.eqb (substring (n - k) k s) suffix.

(** [needle in hay] on two strings *)
Fixpoint str_contains (needle hay : string) : bool :=
  prefix needle hay ||
  match hay with
  | EmptyString => false
  | String _ rest => str_contains needle rest
  end.

(** The names bound at module level in [app.py] (imports, assignments
    and [def]s), in order of binding. *)
Definition module_globals : list string :=
  [ "Flask"; "request"; "send_file"; "render_template_string";
    "secure_filename"; "os"; "zipfile"; "BeautifulSoup"; "tempfile";
    "aiohttp"; "asyncio"; "logging"; "urljoin"; "app"; "UPLOAD_FOLDER";
    "HTTP_TIMEOUT"; "combine_html_from_zip"; "fetch_and_inline";
    "fetch_and_combine_url"; "index" ].

(** Reading, inside a function body, a name that the function neither
    takes as a parameter nor assigns: the module globals are searched
    (no builtin is called [soup]), and [NameError] is raised when the
    name is not bound. *)
Definition load_global (name : string) : result unit :=
  if existsb (String.eqb name) module_globals then Ok tt
  else Raise (Exception "NameError"
                ("name '" ++ name ++ "' is not defined")).

End Py.
Import Py.

Declare Scope py_scope.
Delimit Scope py_scope with py.
Notation "x <- c ;; k" := (Py.bind c (fun x => k))
  (at level 61, c at next level, right associativity) : py_scope.
Local Open Scope py_scope.

(** ** The extracted bundle: a directory tree, [os.walk], [open] *)

Module Fs.

Definition path := list string.

(** What reading a file with [open(p, 'r', encoding='utf-8')] gives. *)
Inductive file_data :=
| Utf8 (text : string)
| Unreadable (e : exn).

(** A directory: its sub-directories and its plain files, each in the
    order in which the file system enumerates them. *)
Inductive tree :=
| Dir (subdirs : list (string * tree)) (files : list (string * file_data)).

Definition subdirs_of (t : tree) := let 'Dir ds _ := t in ds.
Definition files_of (t : tree) := let 'Dir _ fs := t in fs.

(** [os.walk(top)], top-down: the triple of the directory itself, then
    the walks of its sub-directories in order. *)
Fixpoint os_walk (top : path) (t : tree)
  : list (path * list string * list string) :=
  match t with
  | Dir ds fs =>
      (top, map fst ds, map fst fs)
      :: flat_map (fun d => os_walk (top ++ [fst d]) (snd d)) ds
  end.

Fixpoint assoc {A} (k : string) (l : list (string * A)) : option A :=
  match l with
  | [] => None
  | (k', v) :: l' => if String.eqb k k' then Some v else assoc k l'
  end.

(** The entry a relative path names in a tree. *)
Fixpoint lookup (t : tree) (rel : path) : option file_data :=
  match rel with
  | [] => None
  | [f] => assoc f (files_of t)
  | d :: rel' =>
      match assoc d (subdirs_of t) with
      | Some t' => lookup t' rel'
      | None => None
      end
  end.

Fixpoint strip_prefix (pre p : path) : option path :=
  match pre, p with
  | [], _ => Some p
  | a :: pre', b :: p' => if String.eqb a b then strip_prefix pre' p' else None
  | _ :: _, [] => None
  end.

Definition no_such_file : exn :=
  Exception "FileNotFoundError" "[Errno 2] No such file or directory".

(** [with open(p, 'r', encoding='utf-8') as file: file.read()], with
    the tree [t] extracted at [top]. *)
Definition open_read (top : path) (t : tree) (p : path) : result string :=
  match strip_prefix top p with
  | None => Raise no_such_file
  | Some rel =>
      match lookup t rel with
      | Some (Utf8 text) => Ok text
      | Some (Unreadable e) => Raise e
      | None => Raise no_such_file
      end
  end.

(** Every plain file of the tree, as a path relative to its root, in
    the order of the traversal. *)
Fixpoint tree_files (t : tree) : list path :=
  match t with
  | Dir ds fs =>
      map (fun f => [fst f]) fs
      ++ flat_map (fun d => map (cons (fst d)) (tree_files (snd d))) ds
  end.

(** The file name of a path: its last component. *)
Definition basename (p : path) : string := last p "".

Definition has_ext (ext : string) (p : path) : bool :=
  endswith (basename p) ext.

(** The spec's "files with extension [ext] anywhere in the tree". *)
Definition files_with_ext (ext : string) (t : tree) : list path :=
  filter (has_ext ext) (tree_files t).

(** The content of the file at a path relative to the root. *)
Definition content (t : tree) (rel : path) : result string :=
  open_read [] t rel.

End Fs.
Import Fs.

(** ** The document tree and the BeautifulSoup operations used *)

Module Bs4.

(** An attribute value: a string, or a list of strings for the
    multi-valued attributes ([class], [rel], ...). *)
Inductive attr_value :=
| AttrStr (s : string)
| AttrList (l : list string).

(** A node of the tree: a [Tag] or a [NavigableString] (comments,
    doctypes and the like are [NavigableString] subclasses and are
    leaves as well). *)
Inductive node :=
| Tag (name : string) (attrs : list (string * attr_value))
      (contents : list node)
| NavigableString (s : string).

(** The [BeautifulSoup] object: the contents of the document root. *)
Definition soup := list node.

(** [t = soup.new_tag(name); t.string = text] *)
Definition new_tag (name text : string) : node :=
  Tag name [] [NavigableString text].

Definition first_some {A B} (f : A -> option B) : list A -> option B :=
  fix go l :=
    match l with
    | [] => None
    | x :: l' =>
        match f x with
        | Some r => Some r
        | None => go l'
        end
    end.

(** The first tag called [name] in [n] and its descendants, in
    document order. *)
Fixpoint find_from (name : string) (n : node) : option node :=
  match n with
  | Tag nm _ ch =>
      if String.eqb nm name then Some n
      else first_some (find_from name) ch
  | NavigableString _ => None
  end.

(** [soup.find(name)], which is what [soup.head] and [soup.body] are:
    the first descendant tag of that name, or [None]. *)
Definition find (name : string) (doc : soup) : option node :=
  first_some (find_from name) doc.

Definition first_update {A} (f : A -> option A) : list A -> option (list A) :=
  fix go l :=
    match l with
    | [] => None
    | x :: l' =>
        match f x with
        | Some x' => Some (x' :: l')
        | None => option_map (cons x) (go l')
        end
    end.

(** [child] appended to the contents of the first tag called [name]. *)
Fixpoint append_from (name : string) (child : node) (n : node)
  : option node :=
  match n with
  | Tag nm a ch =>
      if String.eqb nm name then Some (Tag nm a (ch ++ [child]))
      else option_map (Tag nm a) (first_update (append_from name child) ch)
  | NavigableString _ => None
  end.

Definition none_has_no_append : exn :=
  Exception "AttributeError"
    "'NoneType' object has no attribute 'append'".

(** [soup.<name>.append(child)]: [soup.<name>] is looked up, and
    [.append] on [None] raises [AttributeError]. *)
Definition find_append (name : string) (child : node) (doc : soup)
  : result soup :=
  match first_update (append_from name child) doc with
  | Some doc' => Ok doc'
  | None => Raise none_has_no_append
  end.

(** [tag[key]] / [tag.get(key)] on the attribute dictionary. *)
Definition get_attr (key : string) (attrs : list (string * attr_value))
  : option attr_value :=
  assoc key attrs.

Definition has_attr (key : string) (attrs : list (string * attr_value))
  : bool :=
  match get_attr key attrs with
  | Some _ => true
  | None => false
  end.

(** [token in value] for an attribute value. *)
Definition attr_contains (token : string) (v : attr_value) : bool :=
  match v with
  | AttrStr s => str_contains token s
  | AttrList l => existsb (String.eqb token) l
  end.

(** A tag object held by the program is identified by its position:
    the child indices from the root down to it. *)
Definition position := list nat.

Definition flat_mapi {A B} (f : nat -> A -> list B)
  : nat -> list A -> list B :=
  fix go i l :=
    match l with
    | [] => []
    | x :: l' => f i x ++ go (S i) l'
    end.

(** The tags called [name] that carry attribute [key], among [n] (at
    position [here]) and its descendants, in document order. *)
Fixpoint find_all_from (name key : string) (here : position) (n : node)
  : list (position * list (string * attr_value)) :=
  match n with
  | Tag nm a ch =>
      (if String.eqb nm name && has_attr key a then [(here, a)] else [])
      ++ flat_mapi (fun i c => find_all_from name key (here ++ [i]) c) 0 ch
  | NavigableString _ => []
  end.

(** [soup.find_all(name, key=True)] *)
Definition find_all (name key : string) (doc : soup)
  : list (position * list (string * attr_value)) :=
  flat_mapi (fun i c => find_all_from name key [i] c) 0 doc.

Fixpoint set_nth {A} (i : nat) (f : A -> A) (l : list A) : list A :=
  match l, i with
  | [], _ => []
  | x :: l', O => f x :: l'
  | x :: l', S i' => x :: set_nth i' f l'
  end.

(** [tag.replace_with(new)] for the tag at position [pos]: [new] takes
    its place among the contents of its parent.  A position that leads
    nowhere (the tag went away with a replaced ancestor) leaves the
    document as it is. *)
Fixpoint replace_with (pos : position) (new : node) (doc : list node)
  : list node :=
  match pos with
  | [] => doc
  | [i] => set_nth i (fun _ => new) doc
  | i :: pos' =>
      set_nth i
        (fun n =>
           match n with
           | Tag nm a ch => Tag nm a (replace_with pos' new ch)
           | NavigableString _ => n
           end)
        doc
  end.

(** How many tags called [name] a tree has. *)
Fixpoint count_from (name : string) (n : node) : nat :=
  match n with
  | Tag nm _ ch =>
      (if String.eqb nm name then 1 else 0)
      + list_sum (map (count_from name) ch)
  | NavigableString _ => 0
  end.

Definition count (name : string) (doc : soup) : nat :=
  list_sum (map (count_from name) doc).

Definition any {A} (P : A -> Prop) : list A -> Prop :=
  fix go l :=
    match l with
    | [] => False
    | x :: l' => P x \/ go l'
    end.

(** [x] is a node of the tree. *)
Fixpoint occurs_from (x : node) (n : node) : Prop :=
  x = n \/
  match n with
  | Tag _ _ ch => any (occurs_from x) ch
  | NavigableString _ => False
  end.

Definition occurs (x : node) (doc : soup) : Prop :=
  any (occurs_from x) doc.



(** [n'] is [n] with nodes added at the end of the contents of some of
    its tags: every node of [n] is in [n'] at the same place, with its
    name, its attributes or its text. *)
Inductive grows : node -> node -> Prop :=
| grows_string (s : string) :
    grows (NavigableString s) (NavigableString s)
| grows_tag (nm : string) (a : list (string * attr_value))
    (ch ch' added : list node) :
    Forall2 grows ch ch' ->
    grows (Tag nm a ch) (Tag nm a (ch' ++ added)).

(** The node at a position, from a tag down ([node_below]) and from the
    contents of the root ([node_at]). *)
Fixpoint node_at (pos : position) (doc : list node) : option node :=
  match pos with
  | [] => None
  | i :: pos' =>
      match nth_error doc i, pos' with
      | Some n, [] => Some n
      | Some (Tag _ _ ch), _ :: _ => node_at pos' ch
      | _, _ => None
      end
  end.

Definition node_below (rest : position) (n : node) : option node :=
  match rest, n with
  | [], _ => Some n
  | _ :: _, Tag _ _ ch => node_at rest ch
  | _ :: _, NavigableString _ => None
  end.

End Bs4.
Import Bs4.

(** ** The application: [app.py] *)

(** [HTTP_TIMEOUT = 10] *)
Definition HTTP_TIMEOUT : Z := 10.

(** An [aiohttp] response: its status and what [await response.text()]
    gives (decoding the body may raise). *)
Record response := Response { status : Z; text : result string }.

(** What [zipfile.ZipFile(zip_file_path, 'r')] and [extractall] make of
    the uploaded file: the extracted tree, or an exception. *)
Inductive archive :=
| Zip (t : tree)
| NotAZip (e : exn).

(** The output files a run has written: path and content. *)
Definition artifacts := list (path * string).

(** A coroutine [fetch_and_inline(session, url, tag, attr, tag_name)]
    that has been created and not yet run. *)
Record task := Task
  { task_url : string; task_tag : position;
    task_attr : string; task_tag_name : string }.

(** What is fixed only when a request runs: the directory made by
    [tempfile.mkdtemp()], the name made by [tempfile.mktemp], and the
    order in which the event loop brings the gathered tasks to their
    end. *)
Record run := Run
  { extract_path : path;
    combined_html_path : path;
    completion_order : list task -> list task }.

Record upload := Upload { filename : string; data : archive }.

(** A request: its method, [request.files.get('file')] and
    [request.form.get('url')]. *)
Record request := Request
  { method : string;
    files_file : option upload;
    form_url : option string }.

(** What the view returns: [send_file(path, as_attachment=True,
    download_name=...)], a plain string, or the rendered upload form. *)
Inductive view_result :=
| SendFile (p : path) (download_name : string)
| Text (body : string)
| RenderForm.

Section App.

(** [BeautifulSoup(text, 'html.parser')], which raises on markup that
    the parser rejects, and [str(soup)]. *)
Variable parse : string -> result soup.
Variable decode : soup -> string.

(** [urllib.parse.urljoin(base, ref)]. *)
Variable urljoin : string -> attr_value -> result string.

(** [session.get(url, timeout=...)]: a response, or the exception of a
    timeout or a connection error. *)
Variable session_get : string -> Z -> result response.

(** The [ClientResponseError] that [raise_for_status] builds. *)
Variable client_response_error : response -> exn.

(** [werkzeug.utils.secure_filename], the upload folder made at import
    time, and [file.save(path)]. *)
Variable secure_filename : string -> string.
Variable UPLOAD_FOLDER : path.
Variable file_save : path -> result unit.

(** *** [combine_html_from_zip] *)

(** The inner loop over [files], with its [break]. *)
Fixpoint first_html_in (root : path) (files : list string) : option path :=
  match files with
  | [] => None
  | file :: files' =>
      if endswith file ".html" then Some (root ++ [file])
      else first_html_in root files'
  end.

(** The outer loop over [os.walk(extract_path)], left at the first
    directory that gave a path. *)
Fixpoint find_html (walk : list (path * list string * list string))
  : option path :=
  match walk with
  | [] => None
  | (root, _, files) :: walk' =>
      match first_html_in root files with
      | Some html_file_path => Some html_file_path
      | None => find_html walk'
      end
  end.

(** [[os.path.join(root, file) for root, _, files in walk
      for file in files if file.endswith(ext)]] *)
Definition files_ending (ext : string)
  (walk : list (path * list string * list string)) : list path :=
  flat_map
    (fun entry =>
       let '(root, _, files) := entry in
       flat_map
         (fun file => if endswith file ext then [root ++ [file]] else [])
         files)
    walk.

(** The two inlining loops have one shape: for each path, read the
    file, make a tag called [tag_name] holding its text, append it to
    [soup.<container>]. *)
Fixpoint inline_each (top : path) (t : tree) (container tag_name : string)
  (paths : list path) (doc : soup) : result soup :=
  match paths with
  | [] => Ok doc
  | p :: paths' =>
      file_content <- open_read top t p ;;
      doc' <- find_append container (new_tag tag_name file_content) doc ;;
      inline_each top t container tag_name paths' doc'
  end.

Definition no_html_file : exn :=
  Exception "FileNotFoundError"
    "No HTML file found in the uploaded ZIP archive.".

(** [combine_html_from_zip] up to the document it is about to write. *)
Definition combine_html_from_zip_soup (top : path) (a : archive)
  : result soup :=
  match a with
  | NotAZip e => Raise e
  | Zip t =>
      let walk := os_walk top t in
      match find_html walk with
      | None => Raise no_html_file
      | Some html_file_path =>
          html <- open_read top t html_file_path ;;
          doc <- parse html ;;
          doc <- inline_each top t "head" "style"
                   (files_ending ".css" walk) doc ;;
          inline_each top t "body" "script" (files_ending ".js" walk) doc
      end
  end.

Definition combine_html_from_zip (r : run) (a : archive)
  : result path * artifacts :=
  match combine_html_from_zip_soup (extract_path r) a with
  | Ok doc =>
      (Ok (combined_html_path r), [(combined_html_path r, decode doc)])
  | Raise e => (Raise e, [])
  end.

(** *** [fetch_and_inline] *)

(** The body of the coroutine, run to its end on the document [doc].
    [soup] is neither a parameter nor a local of this function, so
    [soup.new_tag] starts with a global lookup. *)
Definition fetch_and_inline (doc : soup) (url : string) (tag : position)
  (attr tag_name : string) : soup :=
  try_except
    (resp <- session_get url HTTP_TIMEOUT ;;
     if (status resp =? 200)%Z then
       fetched <- text resp ;;
       _ <- load_global "soup" ;;
       Ok (replace_with tag (new_tag tag_name fetched) doc)
     else Ok doc)
    (fun _ => doc).

(** *** [fetch_and_combine_url] *)

(** aiohttp's [raise_for_status]: an error from status 400 on. *)
Definition raise_for_status (resp : response) : result unit :=
  if (400 <=? status resp)%Z then Raise (client_response_error resp)
  else Ok tt.

Definition key_error (key : string) : exn :=
  Exception "KeyError" ("'" ++ key ++ "'").

Definition rel_of (a : list (string * attr_value)) : attr_value :=
  match get_attr "rel" a with
  | Some v => v
  | None => AttrList []
  end.

(** The loop over [soup.find_all('link', href=True)]. *)
Fixpoint link_tasks (url : string)
  (links : list (position * list (string * attr_value)))
  : result (list task) :=
  match links with
  | [] => Ok []
  | (link, a) :: links' =>
      match get_attr "href" a with
      | None => Raise (key_error "href")
      | Some href =>
          if attr_contains "stylesheet" (rel_of a) then
            css_url <- urljoin url href ;;
            tasks <- link_tasks url links' ;;
            Ok (Task css_url link "href" "style" :: tasks)
          else link_tasks url links'
      end
  end.

(** The loop over [soup.find_all('script', src=True)]. *)
Fixpoint script_tasks (url : string)
  (scripts : list (position * list (string * attr_value)))
  : result (list task) :=
  match scripts with
  | [] => Ok []
  | (script, a) :: scripts' =>
      match get_attr "src" a with
      | None => Raise (key_error "src")
      | Some src =>
          js_url <- urljoin url src ;;
          tasks <- script_tasks url scripts' ;;
          Ok (Task js_url script "src" "script" :: tasks)
      end
  end.

Definition run_task (doc : soup) (k : task) : soup :=
  fetch_and_inline doc (task_url k) (task_tag k) (task_attr k)
    (task_tag_name k).

(** [await asyncio.gather] on the tasks: every task runs to its end, in the
    order the event loop settles on. *)
Definition gather (order : list task -> list task) (tasks : list task)
  (doc : soup) : soup :=
  fold_left run_task (order tasks) doc.

(** [fetch_and_combine_url] up to the document it is about to write. *)
Definition fetch_and_combine_url_soup (order : list task -> list task)
  (url : string) : result soup :=
  resp <- session_get url HTTP_TIMEOUT ;;
  _ <- raise_for_status resp ;;
  html_content <- text resp ;;
  doc <- parse html_content ;;
  css <- link_tasks url (find_all "link" "href" doc) ;;
  js <- script_tasks url (find_all "script" "src" doc) ;;
  Ok (gather order (css ++ js) doc).

Definition fetch_and_combine_url (r : run) (url : string)
  : result path * artifacts :=
  match fetch_and_combine_url_soup (completion_order r) url with
  | Ok doc =>
      (Ok (combined_html_path r), [(combined_html_path r, decode doc)])
  | Raise e => (Raise e, [])
  end.

(** *** [index] *)

(** ['file' in request.files and request.files['file'].filename != ''] *)
Definition uploaded_file (req : request) : option upload :=
  match files_file req with
  | Some file => if String.eqb (filename file) "" then None else Some file
  | None => None
  end.

(** ['url' in request.form and request.form['url']] *)
Definition entered_url (req : request) : option string :=
  match form_url req with
  | Some url => if String.eqb url "" then None else Some url
  | None => None
  end.

Definition error_page (e : exn) : view_result :=
  Text ("An error occurred: " ++ exn_str e).

(** The ZIP branch: [file.save] is outside the [try]. *)
Definition handle_upload (r : run) (file : upload)
  : result view_result * artifacts :=
  let zip_file_path := UPLOAD_FOLDER ++ [secure_filename (filename file)] in
  match file_save zip_file_path with
  | Raise e => (Raise e, [])
  | Ok _ =>
      match combine_html_from_zip r (data file) with
      | (Ok p, w) => (Ok (SendFile p "combined_from_zip.html"), w)
      | (Raise e, w) => (Ok (error_page e), w)
      end
  end.

(** The URL branch. *)
Definition handle_url (r : run) (url : string)
  : result view_result * artifacts :=
  match fetch_and_combine_url r url with
  | (Ok p, w) => (Ok (SendFile p "combined_from_url.html"), w)
  | (Raise e, w) => (Ok (error_page e), w)
  end.

Definition index (r : run) (req : request)
  : result view_result * artifacts :=
  if String.eqb (method req) "POST" then
    match uploaded_file req with
    | Some file => handle_upload r file
    | None =>
        match entered_url req with
        | Some url => handle_url r url
        | None => (Ok RenderForm, [])
        end
    end
  else (Ok RenderForm, []).

End App.

(** The test of the loop over the links, on an entry of [find_all]. *)
Definition is_stylesheet_link (e : position * list (string * attr_value))
  : bool :=
  attr_contains "stylesheet" (rel_of (snd e)).

(** ** A small world to run the pipelines in *)

Module Demo.

Local Open Scope string_scope.

Definition page_html : string := "<html><head></head><body></body></html>".
Definition page : soup :=
  [Tag "html" [] [Tag "head" [] []; Tag "body" [] []]].

Definition bare_html : string := "<p>hello</p>".
Definition bare : soup := [Tag "p" [] [NavigableString "hello"]].

Definition link_tag : node :=
  Tag "link" [("rel", AttrList ["stylesheet"]); ("href", AttrStr "a.css")] [].
Definition script_tag : node :=
  Tag "script" [("src", AttrStr "b.js")] [].

Definition link_html : string :=
  "<head><link rel='stylesheet' href='a.css'></head>".
Definition link_page : soup := [Tag "head" [] [link_tag]].

Definition two_html : string :=
  "<head><link rel='stylesheet' href='a.css'><script src='b.js'></script></head>".
Definition two_page : soup := [Tag "head" [] [link_tag; script_tag]].

Definition rejected_html : string := "<![foo bar]]>".
Definition rejected_markup : exn :=
  Exception "ParserRejectedMarkup" "unknown status keyword in marked section".

(** A parser that knows the pages above, and one piece of markup that
    it rejects. *)
Definition parse (s : string) : result soup :=
  if String.eqb s page_html then Ok page
  else if String.eqb s bare_html then Ok bare
  else if String.eqb s link_html then Ok link_page
  else if String.eqb s two_html then Ok two_page
  else if String.eqb s rejected_html then Raise rejected_markup
  else Ok [NavigableString s].

Definition render_value (v : attr_value) : string :=
  match v with
  | AttrStr s => s
  | AttrList l => String.concat " " l
  end.

Fixpoint render (n : node) : string :=
  match n with
  | Tag nm a ch =>
      "<" ++ nm
      ++ String.concat ""
           (map (fun kv => " " ++ fst kv ++ "='" ++ render_value (snd kv) ++ "'") a)
      ++ ">" ++ String.concat "" (map render ch) ++ "</" ++ nm ++ ">"
  | NavigableString s => s
  end.

(** A plain serializer that stands in for [str(soup)]. *)
Definition decode (doc : soup) : string := String.concat "" (map render doc).

Definition urljoin (base : string) (ref : attr_value) : result string :=
  match ref with
  | AttrStr s => Ok (base ++ s)
  | AttrList _ =>
      Raise (Exception "TypeError" "Cannot mix str and non-str arguments")
  end.

Definition timed_out : exn := Exception "TimeoutError" "".

(** A stub server: fixed answers for a few addresses, a timeout for
    the rest. *)
Definition session_get (url : string) (timeout : Z) : result response :=
  if String.eqb url "http://site/" then Ok (Response 200 (Ok link_html))
  else if String.eqb url "http://site/a.css"
       then Ok (Response 200 (Ok "body{color:red}"))
  else if String.eqb url "http://site/two/" then Ok (Response 200 (Ok two_html))
  else if String.eqb url "http://site/two/a.css"
       then Ok (Response 200 (Ok "body{color:red}"))
  else if String.eqb url "http://site/choices"
       then Ok (Response 300 (Ok page_html))
  else if String.eqb url "http://site/missing"
       then Ok (Response 404 (Ok "not found"))
  else Raise timed_out.

Definition client_response_error (resp : response) : exn :=
  Exception "ClientResponseError" "error status".

Definition secure_filename (s : string) : string := s.
Definition UPLOAD_FOLDER : path := ["tmp"; "uploads"].
Definition file_save (p : path) : result unit := Ok tt.

Definition first_run : run :=
  Run ["tmp"; "extract1"] ["tmp"; "out1.html"] (fun tasks => tasks).
Definition second_run : run :=
  Run ["tmp"; "extract2"] ["tmp"; "out2.html"] (@rev task).

Definition denied : exn :=
  Exception "PermissionError" "[Errno 13] Permission denied".

(** One document, one stylesheet and one script, in sub-directories. *)
Definition site : tree :=
  Dir [ ("css", Dir [] [("site.css", Utf8 "body{color:red}")]);
        ("js", Dir [] [("app.js", Utf8 "alert(1)")]) ]
      [ ("index.html", Utf8 page_html) ].

Definition no_document : tree :=
  Dir [ ("css", Dir [] [("site.css", Utf8 "body{color:red}")]) ]
      [ ("readme.txt", Utf8 "nothing here") ].

Definition locked_css : tree :=
  Dir [] [ ("index.html", Utf8 page_html);
           ("site.css", Unreadable denied) ].

Definition headless : tree :=
  Dir [] [ ("index.html", Utf8 bare_html);
           ("site.css", Utf8 "p{margin:0}") ].

End Demo.

(** * Properties *)

(** ** The bundle *)

Lemma tree_rect' (P : tree -> Prop) :
  (forall ds fs, Forall (fun d => P (snd d)) ds -> P (Dir ds fs)) ->
  forall t, P t.
Proof.
  intros step. fix IH 1. intros [ds fs]. apply step.
  induction ds as [|d ds IHds]; constructor.
  - apply IH.
  - exact IHds.
Qed.

Lemma strip_prefix_app (top rel : path) :
  strip_prefix top (top ++ rel) = Some rel.
Proof.
  induction top as [|a top IH]; simpl; [reflexivity|].
  now rewrite String.eqb_refl.
Qed.

Lemma open_read_under (top : path) (t : tree) (rel : path) :
  open_read top t (top ++ rel) = content t rel.
Proof.
  unfold content, open_read. now rewrite strip_prefix_app.
Qed.

Lemma tree_files_nonempty (t : tree) : Forall (fun p => p <> []) (tree_files t).
Proof.
  induction t as [ds fs IH] using tree_rect'. simpl.
  apply Forall_app. split.
  - apply Forall_forall. intros p Hin. apply in_map_iff in Hin.
    destruct Hin as (f & <- & _). discriminate.
  - apply Forall_forall. intros p Hin. apply in_flat_map in Hin.
    destruct Hin as (d & _ & Hin). apply in_map_iff in Hin.
    destruct Hin as (q & <- & _). discriminate.
Qed.

Lemma has_ext_cons (ext d : string) (p : path) :
  p <> [] -> has_ext ext (d :: p) = has_ext ext p.
Proof.
  intros Hp. unfold has_ext, basename. destruct p; [contradiction|reflexivity].
Qed.

Lemma has_ext_app (ext : string) (top rel : path) :
  rel <> [] -> has_ext ext (top ++ rel) = has_ext ext rel.
Proof.
  intros Hp. induction top as [|a top IH]; [reflexivity|].
  simpl. rewrite has_ext_cons; [exact IH|].
  destruct top; simpl; [exact Hp|discriminate].
Qed.

Lemma filter_ext_under (ext d : string) (l : list path) :
  Forall (fun p => p <> []) l ->
  filter (has_ext ext) (map (cons d) l) = map (cons d) (filter (has_ext ext) l).
Proof.
  induction 1 as [|p l Hp _ IH]; [reflexivity|].
  simpl. rewrite (has_ext_cons ext d p Hp).
  destruct (has_ext ext p); simpl; now rewrite IH.
Qed.

Lemma files_ending_app (ext : string) (w1 w2 : list (path * list string * list string)) :
  files_ending ext (w1 ++ w2) = files_ending ext w1 ++ files_ending ext w2.
Proof. unfold files_ending. apply flat_map_app. Qed.

Lemma files_ending_here (ext : string) (top : path) (fs : list (string * file_data)) :
  flat_map (fun file => if endswith file ext then [top ++ [file]] else [])
    (map fst fs)
  = map (app top) (filter (has_ext ext) (map (fun f => [fst f]) fs)).
Proof.
  induction fs as [|f fs IH]; [reflexivity|].
  cbn [map flat_map filter]. unfold has_ext at 1.
  change (basename [fst f]) with (fst f).
  destruct (endswith (fst f) ext); cbn [map app]; now rewrite IH.
Qed.

(** The comprehension over [os.walk] lists the files of the tree that
    end in [ext], in traversal order, under the extraction directory. *)
Lemma files_ending_walk (ext : string) (t : tree) :
  forall top,
    files_ending ext (os_walk top t) = map (app top) (files_with_ext ext t).
Proof.
  unfold files_with_ext.
  induction t as [ds fs IH] using tree_rect'. intros top.
  cbn [os_walk tree_files]. change (?x :: ?l) with ([x] ++ l).
  rewrite files_ending_app, filter_app, map_app. f_equal.
  - unfold files_ending. cbn [flat_map]. rewrite app_nil_r.
    apply files_ending_here.
  - induction IH as [|d ds Hd _ IHds]; [reflexivity|].
    cbn [flat_map]. rewrite files_ending_app, filter_app, map_app.
    rewrite IHds, Hd. f_equal.
    rewrite filter_ext_under by apply tree_files_nonempty.
    rewrite !map_map. apply map_ext. intros p.
    now rewrite <- app_assoc.
Qed.

Lemma first_html_in_hd (root : path) (files : list string) :
  first_html_in root files
  = hd_error (flat_map
                (fun file => if endswith file ".html" then [root ++ [file]] else [])
                files).
Proof.
  induction files as [|f files IH]; [reflexivity|].
  simpl. destruct (endswith f ".html"); [reflexivity|exact IH].
Qed.

Lemma hd_error_app {A} (l1 l2 : list A) :
  hd_error (l1 ++ l2) = match hd_error l1 with
                        | Some x => Some x
                        | None => hd_error l2
                        end.
Proof. destruct l1; reflexivity. Qed.

(** The two nested loops with their [break]s stop at the first path of
    the comprehension with [.html]. *)
Lemma find_html_hd (walk : list (path * list string * list string)) :
  find_html walk = hd_error (files_ending ".html" walk).
Proof.
  induction walk as [|[[root dirs] files] walk IH]; [reflexivity|].
  cbn [find_html]. unfold files_ending. cbn [flat_map].
  rewrite hd_error_app, <- first_html_in_hd.
  destruct (first_html_in root files); [reflexivity|exact IH].
Qed.

(** ** The document tree *)

Lemma node_rect' (P : node -> Prop) :
  (forall nm a ch, Forall P ch -> P (Tag nm a ch)) ->
  (forall s, P (NavigableString s)) ->
  forall n, P n.
Proof.
  intros Htag Hstr. fix IH 1. intros [nm a ch|s]; [|apply Hstr].
  apply Htag. induction ch as [|c ch IHch]; constructor.
  - apply IH.
  - exact IHch.
Qed.

Section FirstMatch.
Context {A B : Type}.

Lemma first_some_none (f : A -> option B) (l : list A) :
  first_some f l = None <-> Forall (fun x => f x = None) l.
Proof.
  induction l as [|x l IH]; simpl.
  - split; [constructor|reflexivity].
  - destruct (f x) eqn:E.
    + split; [discriminate|]. intros H. inversion H. congruence.
    + rewrite IH. split; [now constructor|]. intros H. now inversion H.
Qed.


Lemma first_update_none (f : A -> option A) (l : list A) :
  first_update f l = None <-> Forall (fun x => f x = None) l.
Proof.
  induction l as [|x l IH]; simpl.
  - split; [constructor|reflexivity].
  - destruct (f x) eqn:E.
    + split; [discriminate|]. intros H. inversion H. congruence.
    + destruct (first_update f l) eqn:E'; simpl.
      * split; [discriminate|]. intros H. inversion H; subst.
        apply IH in H3. discriminate.
      * split; [|reflexivity]. intros _. constructor; [exact E|].
        now apply IH.
Qed.

(** A successful update rewrote exactly one element, the first one on
    which [f] is defined. *)
Lemma first_update_some (f : A -> option A) (l l' : list A) :
  first_update f l = Some l' ->
  exists l1 x x' l2,
    l = l1 ++ x :: l2 /\ l' = l1 ++ x' :: l2 /\
    f x = Some x' /\ Forall (fun y => f y = None) l1.
Proof.
  revert l'. induction l as [|y l IH]; simpl; intros l' H; [discriminate|].
  destruct (f y) as [y'|] eqn:E.
  - injection H as <-. exists [], y, y', l. repeat split; auto.
  - destruct (first_update f l) as [l0|] eqn:E'; [|discriminate].
    injection H as <-.
    destruct (IH l0 eq_refl) as (l1 & x & x' & l2 & -> & -> & Hx & Hl1).
    exists (y :: l1), x, x', l2. repeat split; auto.
Qed.

Lemma first_update_at (f : A -> option A) (l1 l2 : list A) (x x' : A) :
  Forall (fun y => f y = None) l1 -> f x = Some x' ->
  first_update f (l1 ++ x :: l2) = Some (l1 ++ x' :: l2).
Proof.
  intros H Hx. induction H as [|y l1 Hy _ IH]; simpl.
  - now rewrite Hx.
  - now rewrite Hy, IH.
Qed.

End FirstMatch.

Lemma any_app {A} (P : A -> Prop) (l1 l2 : list A) :
  any P (l1 ++ l2) <-> any P l1 \/ any P l2.
Proof.
  induction l1 as [|x l1 IH]; simpl; [tauto|]. rewrite IH. tauto.
Qed.

Lemma any_exists {A} (P : A -> Prop) (l : list A) :
  any P l <-> exists x, In x l /\ P x.
Proof.
  induction l as [|x l IH]; simpl.
  - split; [contradiction|]. intros (x & [] & _).
  - rewrite IH. split.
    + intros [H|(y & Hy & Py)]; [exists x; auto|exists y; auto].
    + intros (y & [<-|Hy] & Py); [now left|right; now exists y].
Qed.

Section Append.
Variables (name : string) (child : node).

Lemma append_from_none (n : node) :
  append_from name child n = None <-> find_from name n = None.
Proof.
  induction n as [nm a ch IH|s] using node_rect'; simpl; [|tauto].
  destruct (String.eqb nm name); [split; discriminate|].
  rewrite first_some_none.
  destruct (first_update (append_from name child) ch) as [ch'|] eqn:E; simpl.
  - split; [discriminate|]. intros H.
    assert (first_update (append_from name child) ch = None) as E'.
    { apply first_update_none. rewrite Forall_forall in *.
      intros x Hx. apply IH; auto. }
    congruence.
  - split; [|reflexivity]. intros _.
    apply first_update_none in E. rewrite Forall_forall in *.
    intros x Hx. apply IH; auto.
Qed.

Lemma append_none (doc : soup) :
  first_update (append_from name child) doc = None <-> find name doc = None.
Proof.
  unfold find. rewrite first_update_none, first_some_none.
  rewrite !Forall_forall. split; intros H x Hx; apply append_from_none; auto.
Qed.



End Append.



Section AppendElsewhere.
Variables (name : string) (child : node) (other : string).
Hypothesis other_name : other <> name.
Hypothesis child_clean : find_from other child = None.




End AppendElsewhere.

Section AppendCount.
Variables (name : string) (child : node) (counted : string).

Lemma count_list (l l' : list node) :
  Forall (fun x => forall x', append_from name child x = Some x' ->
                     count_from counted x'
                     = count_from counted x + count_from counted child) l ->
  first_update (append_from name child) l = Some l' ->
  list_sum (map (count_from counted) l')
  = list_sum (map (count_from counted) l) + count_from counted child.
Proof.
  intros IH Happ.
  destruct (first_update_some _ _ _ Happ)
    as (l1 & x & x' & l2 & -> & -> & Hx & _).
  rewrite Forall_forall in IH. specialize (IH x (in_elt x l1 l2) x' Hx).
  rewrite !map_app, !list_sum_app. simpl. lia.
Qed.

Lemma count_from_append (n : node) :
  forall n', append_from name child n = Some n' ->
             count_from counted n'
             = count_from counted n + count_from counted child.
Proof.
  induction n as [nm a ch IH|s] using node_rect'; simpl; intros n' Happ;
    [|discriminate].
  destruct (String.eqb nm name).
  - injection Happ as <-. simpl.
    rewrite map_app, list_sum_app. simpl. lia.
  - destruct (first_update (append_from name child) ch) as [ch1|] eqn:E1;
      [|discriminate].
    injection Happ as <-. simpl.
    rewrite (count_list ch ch1 IH E1). lia.
Qed.

(** An append adds the tags of the child to the document and nothing
    else. *)
Lemma count_append (doc doc' : soup) :
  first_update (append_from name child) doc = Some doc' ->
  count counted doc' = count counted doc + count_from counted child.
Proof.
  intros Happ. apply count_list; [|exact Happ].
  apply Forall_forall. intros x _. apply count_from_append.
Qed.
End AppendCount.

Section AppendOccurs.
Variables (name : string) (child : node).

Lemma occurs_list (x : node) (l l' : list node) :
  Forall (fun y => forall y', append_from name child y = Some y' ->
                     occurs_from x y -> occurs_from x y') l ->
  first_update (append_from name child) l = Some l' ->
  any (occurs_from x) l -> any (occurs_from x) l'.
Proof.
  intros IH Happ.
  destruct (first_update_some _ _ _ Happ)
    as (l1 & y & y' & l2 & -> & -> & Hy & _).
  rewrite Forall_forall in IH. specialize (IH y (in_elt y l1 l2) y' Hy).
  rewrite !any_app. simpl. tauto.
Qed.

(** A node that holds no tag called [name] is not altered by the
    append, so it is still in the tree. *)
Lemma occurs_from_append (x : node) (n : node) :
  find_from name x = None ->
  forall n', append_from name child n = Some n' ->
             occurs_from x n -> occurs_from x n'.
Proof.
  intros Hx.
  induction n as [nm a ch IH|s] using node_rect'; intros n' Happ Hocc;
    [|discriminate].
  destruct Hocc as [->|Hocc].
  { apply (append_from_none name child) in Hx. congruence. }
  simpl in Happ. destruct (String.eqb nm name).
  - injection Happ as <-. right. apply any_app. now left.
  - destruct (first_update (append_from name child) ch) as [ch1|] eqn:E1;
      [|discriminate].
    injection Happ as <-. right.
    apply (occurs_list x ch ch1); assumption.
Qed.

Lemma occurs_append (x : node) (doc doc' : soup) :
  find_from name x = None ->
  first_update (append_from name child) doc = Some doc' ->
  occurs x doc -> occurs x doc'.
Proof.
  intros Hx Happ. apply occurs_list; [|exact Happ].
  apply Forall_forall. intros y _. now apply occurs_from_append.
Qed.



End AppendOccurs.

Lemma find_none_count (name : string) (doc : soup) :
  find name doc = None <-> count name doc = 0.
Proof.
  assert (forall n, find_from name n = None <-> count_from name n = 0) as Hn.
  { induction n as [nm a ch IH|s] using node_rect'; simpl; [|tauto].
    destruct (String.eqb nm name); [split; [discriminate|lia]|].
    simpl. induction IH as [|c ch Hc _ IHch]; simpl; [tauto|].
    destruct (find_from name c) eqn:E.
    - split; [discriminate|]. intros H.
      assert (count_from name c = 0) as H0 by lia.
      apply Hc in H0. discriminate.
    - assert (count_from name c = 0) as -> by now apply Hc.
      exact IHch. }
  unfold find, count. induction doc as [|c doc IH]; simpl; [tauto|].
  destruct (find_from name c) eqn:E.
  - split; [discriminate|]. intros H.
    assert (count_from name c = 0) as H0 by lia.
    apply Hn in H0. congruence.
  - assert (count_from name c = 0) as -> by now apply Hn.
    exact IH.
Qed.

Lemma count_new_tag (counted tag_name text : string) :
  count_from counted (new_tag tag_name text)
  = if String.eqb tag_name counted then 1 else 0.
Proof. simpl. destruct (String.eqb tag_name counted); reflexivity. Qed.



Lemma find_append_inv (name : string) (child : node) (doc doc' : soup) :
  find_append name child doc = Ok doc' ->
  first_update (append_from name child) doc = Some doc'.
Proof.
  unfold find_append.
  destruct (first_update (append_from name child) doc); [|discriminate].
  now intros [= ->].
Qed.

Lemma find_append_missing (name : string) (child : node) (doc : soup) :
  find name doc = None ->
  find_append name child doc = Raise none_has_no_append.
Proof.
  intros H. unfold find_append.
  apply (append_none name child) in H. now rewrite H.
Qed.

(** ** The inlining loops of the bundle pipeline *)

Section InlineEach.
Variables (top : path) (t : tree) (container tag_name : string).

Lemma inline_each_step (p : path) (paths : list path) (doc doc' : soup) :
  inline_each top t container tag_name (p :: paths) doc = Ok doc' ->
  exists text doc1,
    open_read top t p = Ok text /\
    first_update (append_from container (new_tag tag_name text)) doc
    = Some doc1 /\
    inline_each top t container tag_name paths doc1 = Ok doc'.
Proof.
  simpl. destruct (open_read top t p) as [text|e]; [|discriminate]. simpl.
  destruct (find_append container (new_tag tag_name text) doc)
    as [doc1|e] eqn:E; [|discriminate].
  simpl. intros H. exists text, doc1. apply find_append_inv in E. auto.
Qed.

(** Each pass adds one tag called [tag_name] and no other tag. *)
Lemma inline_each_count (counted : string) (paths : list path) :
  forall doc doc',
    inline_each top t container tag_name paths doc = Ok doc' ->
    count counted doc'
    = count counted doc
      + (if String.eqb tag_name counted then List.length paths else 0).
Proof.
  induction paths as [|p paths IH]; intros doc doc' H.
  - injection H as <-. destruct (String.eqb tag_name counted); simpl; lia.
  - destruct (inline_each_step _ _ _ _ H) as (text & doc1 & _ & Happ & Hrest).
    rewrite (IH _ _ Hrest), (count_append _ _ counted _ _ Happ).
    rewrite count_new_tag. cbn [List.length].
    destruct (String.eqb tag_name counted); lia.
Qed.

Lemma inline_each_keeps (x : node) (paths : list path) :
  find_from container x = None ->
  forall doc doc',
    inline_each top t container tag_name paths doc = Ok doc' -> occurs x doc -> occurs x doc'.
Proof.
  intros Hx. induction paths as [|p paths IH]; intros doc doc' H Hocc.
  - now injection H as <-.
  - destruct (inline_each_step _ _ _ _ H) as (text & doc1 & _ & Happ & Hrest).
    apply (IH _ _ Hrest). eapply occurs_append; eauto.
Qed.



(** One unreadable file among the paths makes the inline_each top t container tag_name raise. *)
Lemma inline_each_unreadable (paths : list path) :
  Exists (fun p => exists e, open_read top t p = Raise e) paths ->
  forall doc, exists e, inline_each top t container tag_name paths doc = Raise e.
Proof.
  induction 1 as [p paths (e & Hread)|p paths _ IH]; intros doc; simpl.
  - rewrite Hread. simpl. eauto.
  - destruct (open_read top t p) as [text|e]; simpl; [|eauto].
    destruct (find_append container (new_tag tag_name text) doc)
      as [doc1|e]; simpl; [|eauto].
    apply IH.
Qed.

(** With no [soup.<container>], the first pass already raises. *)
Lemma inline_each_no_container (paths : list path) (doc : soup) :
  paths <> [] -> find container doc = None ->
  exists e, inline_each top t container tag_name paths doc = Raise e.
Proof.
  intros Hne Hfind. destruct paths as [|p paths]; [contradiction|].
  simpl. destruct (open_read top t p) as [text|e]; simpl; [|eauto].
  rewrite (find_append_missing _ _ _ Hfind). simpl. eauto.
Qed.
(** When the loop raises, it is a file that could not be read, or the
    append on a missing container. *)
Lemma inline_each_raise_cause (paths : list path) :
  forall doc e,
    inline_each top t container tag_name paths doc = Raise e ->
    e = none_has_no_append \/
    exists p, In p paths /\ open_read top t p = Raise e.
Proof.
  induction paths as [|p paths IH]; intros doc e H; [discriminate|].
  simpl in H. destruct (open_read top t p) as [text|e0] eqn:Hread.
  - cbn [bind] in H. unfold find_append in H.
    destruct (first_update (append_from container (new_tag tag_name text)) doc)
      as [doc1|].
    + cbn [bind] in H. destruct (IH _ _ H) as [->|(q & Hq & Hr)];
        [now left|right; exists q; split; [now right|exact Hr]].
    + cbn [bind] in H. injection H as <-. now left.
  - cbn [bind] in H. injection H as <-. right. exists p. split;
      [now left|exact Hread].
Qed.
End InlineEach.

Lemma inline_each_under (top : path) (t : tree) (container tag_name : string)
  (rels : list path) :
  forall doc,
    inline_each top t container tag_name (map (app top) rels) doc
    = inline_each [] t container tag_name rels doc.
Proof.
  induction rels as [|rel rels IH]; intros doc; [reflexivity|].
  simpl. rewrite open_read_under. unfold content.
  destruct (open_read [] t rel) as [text|e]; simpl; [|reflexivity].
  destruct (find_append container (new_tag tag_name text) doc); simpl;
    [apply IH|reflexivity].
Qed.

Section Bundle.
Variable parse : string -> result soup.

(** The pipeline in terms of the tree alone: the extraction directory
    plays no part. *)
Lemma combine_soup_tree (top : path) (t : tree) :
  combine_html_from_zip_soup parse top (Zip t)
  = match hd_error (files_with_ext ".html" t) with
    | None => Raise no_html_file
    | Some rel =>
        html <- content t rel ;;
        doc <- parse html ;;
        doc <- inline_each [] t "head" "style" (files_with_ext ".css" t) doc ;;
        inline_each [] t "body" "script" (files_with_ext ".js" t) doc
    end.
Proof.
  unfold combine_html_from_zip_soup.
  rewrite find_html_hd, !files_ending_walk.
  destruct (files_with_ext ".html" t) as [|rel rels]; [reflexivity|].
  cbn [map hd_error]. rewrite open_read_under.
  destruct (content t rel) as [html|e]; [|reflexivity].
  cbn [bind]. destruct (parse html) as [doc|e]; [|reflexivity].
  cbn [bind]. rewrite inline_each_under.
  destruct (inline_each [] t "head" "style" (files_with_ext ".css" t) doc);
    [|reflexivity].
  cbn [bind]. apply inline_each_under.
Qed.
End Bundle.

(** ** The remote pipeline *)

Section Remote.
Variable urljoin : string -> attr_value -> result string.
Variable session_get : string -> Z -> result response.

(** [soup] is not bound where [fetch_and_inline] looks for it. *)
Lemma soup_unbound : exists e, load_global "soup" = Raise e.
Proof. eexists. reflexivity. Qed.

(** Whatever the fetch gives, the coroutine ends with the document as
    it found it: on status 200 the lookup of [soup] raises inside the
    [try], and [except Exception] takes it. *)
Lemma fetch_and_inline_unchanged (doc : soup) (url : string)
  (tag : position) (attr tag_name : string) :
  fetch_and_inline session_get doc url tag attr tag_name = doc.
Proof.
  unfold fetch_and_inline, try_except.
  destruct (session_get url HTTP_TIMEOUT) as [resp|e]; [|reflexivity].
  cbn [bind]. destruct (status resp =? 200)%Z; [|reflexivity].
  destruct (text resp); reflexivity.
Qed.

Lemma gather_unchanged (order : list task -> list task)
  (tasks : list task) (doc : soup) :
  gather session_get order tasks doc = doc.
Proof.
  unfold gather. induction (order tasks) as [|k ks IH]; [reflexivity|].
  simpl. unfold run_task at 2. now rewrite fetch_and_inline_unchanged.
Qed.
End Remote.

(** * The claims of the specification *)

Section BundleClaims.
Variable parse : string -> result soup.
Variable decode : soup -> string.
Variable secure_filename : string -> string.
Variable UPLOAD_FOLDER : path.
Variable file_save : path -> result unit.

Lemma combine_raises (r : run) (a : archive) (e : exn) :
  combine_html_from_zip_soup parse (extract_path r) a = Raise e ->
  combine_html_from_zip parse decode r a = (Raise e, []).
Proof. unfold combine_html_from_zip. now intros ->. Qed.


Lemma handle_upload_raises (r : run) (file : upload) (e : exn) :
  file_save (UPLOAD_FOLDER ++ [secure_filename (filename file)]) = Ok tt ->
  combine_html_from_zip parse decode r (data file) = (Raise e, []) ->
  handle_upload parse decode secure_filename UPLOAD_FOLDER file_save r file
  = (Ok (error_page e), []).
Proof. unfold handle_upload. now intros -> ->. Qed.


(** C4. A bundle with no file ending in [.html] anywhere in its tree:
    the pipeline raises [FileNotFoundError] ("No HTML file found in
    the uploaded ZIP archive.") and writes no output file; the view
    answers with that message. *)
Theorem no_html_no_artifact (r : run) (t : tree) :
  files_with_ext ".html" t = [] ->
  combine_html_from_zip parse decode r (Zip t) = (Raise no_html_file, []) /\
  forall file,
    data file = Zip t ->
    file_save (UPLOAD_FOLDER ++ [secure_filename (filename file)]) = Ok tt ->
    handle_upload parse decode secure_filename UPLOAD_FOLDER file_save r file
    = (Ok (Text "An error occurred: No HTML file found in the uploaded ZIP archive."),
       []).
Proof.
  intros Hnone.
  assert (combine_html_from_zip parse decode r (Zip t)
          = (Raise no_html_file, [])) as H.
  { apply combine_raises. now rewrite combine_soup_tree, Hnone. }
  split; [exact H|]. intros file Hdata Hsave.
  rewrite (handle_upload_raises r file no_html_file Hsave); [reflexivity|].
  now rewrite Hdata.
Qed.



(** C7. One [.css] or [.js] file of the bundle that cannot be read (or
    decoded) is fatal for the request: the pipeline raises, writes no
    output file, and the view answers with the error message. *)
Theorem unreadable_asset_fatal (r : run) (t : tree) (p : path) (e0 : exn) :
  In p (files_with_ext ".css" t ++ files_with_ext ".js" t) ->
  content t p = Raise e0 ->
  exists e,
    combine_html_from_zip parse decode r (Zip t) = (Raise e, []) /\
    forall file,
      data file = Zip t ->
      file_save (UPLOAD_FOLDER ++ [secure_filename (filename file)]) = Ok tt ->
      handle_upload parse decode secure_filename UPLOAD_FOLDER file_save r file
      = (Ok (Text ("An error occurred: " ++ exn_str e)), []).
Proof.
  intros Hin Hbad.
  assert (exists e, combine_html_from_zip_soup parse (extract_path r) (Zip t)
                    = Raise e) as (e & He).
  { rewrite combine_soup_tree.
    destruct (hd_error (files_with_ext ".html" t)) as [rel|]; [|eauto].
    destruct (content t rel) as [html|e1]; cbn [bind]; [|eauto].
    destruct (parse html) as [doc|e1]; cbn [bind]; [|eauto].
    apply in_app_or in Hin. destruct Hin as [Hin|Hin].
    - destruct (inline_each_unreadable [] t "head" "style"
                  (files_with_ext ".css" t)
                  ltac:(apply Exists_exists; exists p; eauto) doc)
        as (e & ->). cbn [bind]. eauto.
    - destruct (inline_each [] t "head" "style" (files_with_ext ".css" t)
                  doc) as [doc1|e1]; cbn [bind]; [|eauto].
      apply (inline_each_unreadable [] t "body" "script").
      apply Exists_exists. exists p. eauto. }
  exists e. apply (combine_raises r (Zip t) e) in He.
  split; [exact He|]. intros file Hdata Hsave.
  apply (handle_upload_raises r file e Hsave). now rewrite Hdata.
Qed.

(** C9. When the document has no head and the bundle has a [.css]
    file, or no body and the bundle has a [.js] file, the pipeline
    raises and writes no output file.  The exception is the
    [AttributeError] of the append on [None], unless a file that could
    not be read came first. *)
Theorem missing_container_fatal (r : run) (t : tree) (rel : path)
  (html : string) (doc : soup) :
  hd_error (files_with_ext ".html" t) = Some rel ->
  content t rel = Ok html ->
  parse html = Ok doc ->
  (find "head" doc = None /\ files_with_ext ".css" t <> []) \/
  (find "body" doc = None /\ files_with_ext ".js" t <> []) ->
  exists e,
    combine_html_from_zip parse decode r (Zip t) = (Raise e, []) /\
    (e = none_has_no_append \/
     exists p, In p (files_with_ext ".css" t ++ files_with_ext ".js" t) /\
               content t p = Raise e) /\
    forall file,
      data file = Zip t ->
      file_save (UPLOAD_FOLDER ++ [secure_filename (filename file)]) = Ok tt ->
      handle_upload parse decode secure_filename UPLOAD_FOLDER file_save r file
      = (Ok (Text ("An error occurred: " ++ exn_str e)), []).
Proof.
  intros Hfirst Hread Hparse Hmissing.
  assert (exists e,
            combine_html_from_zip_soup parse (extract_path r) (Zip t)
            = Raise e /\
            (e = none_has_no_append \/
             exists p, In p (files_with_ext ".css" t ++ files_with_ext ".js" t)
                       /\ content t p = Raise e)) as (e & He & Hcause).
  { rewrite combine_soup_tree, Hfirst, Hread. cbn [bind].
    rewrite Hparse. cbn [bind].
    destruct (inline_each [] t "head" "style" (files_with_ext ".css" t)
                doc) as [doc1|e1] eqn:L1; cbn [bind].
    - destruct Hmissing as [[Nhead Hcss]|[Nbody Hjs]].
      + destruct (inline_each_no_container [] t "head" "style" _ _ Hcss Nhead)
          as (e & He). congruence.
      + assert (find "body" doc1 = None) as Nbody1.
        { rewrite find_none_count in Nbody |- *.
          rewrite (inline_each_count _ _ _ _ "body" _ _ _ L1). simpl. lia. }
        destruct (inline_each_no_container [] t "body" "script" _ _ Hjs Nbody1)
          as (e & He).
        exists e. split; [exact He|].
        destruct (inline_each_raise_cause _ _ _ _ _ _ _ He)
          as [->|(p & Hp & Rp)]; [now left|].
        right. exists p. split; [apply in_or_app; now right|exact Rp].
    - exists e1. split; [reflexivity|].
      destruct (inline_each_raise_cause _ _ _ _ _ _ _ L1)
        as [->|(p & Hp & Rp)]; [now left|].
      right. exists p. split; [apply in_or_app; now left|exact Rp]. }
  exists e. apply (combine_raises r (Zip t) e) in He.
  repeat split; [exact He|exact Hcause|]. intros file Hdata Hsave.
  apply (handle_upload_raises r file e Hsave). now rewrite Hdata.
Qed.
End BundleClaims.

Section RemoteClaims.
Variable parse : string -> result soup.
Variable decode : soup -> string.
Variable urljoin : string -> attr_value -> result string.
Variable session_get : string -> Z -> result response.
Variable client_response_error : response -> exn.
Variable secure_filename : string -> string.
Variable UPLOAD_FOLDER : path.
Variable file_save : path -> result unit.

(** The document the remote pipeline writes is the one it parsed: no
    task changes it. *)
Lemma fetch_soup_as_parsed (order : list task -> list task) (url : string) :
  fetch_and_combine_url_soup parse urljoin session_get client_response_error
    order url
  = (resp <- session_get url HTTP_TIMEOUT ;;
     _ <- raise_for_status client_response_error resp ;;
     html_content <- text resp ;;
     doc <- parse html_content ;;
     css <- link_tasks urljoin url (find_all "link" "href" doc) ;;
     js <- script_tasks urljoin url (find_all "script" "src" doc) ;;
     Ok doc).
Proof.
  unfold fetch_and_combine_url_soup.
  destruct (session_get url HTTP_TIMEOUT) as [resp|e]; [|reflexivity].
  cbn [bind]. destruct (raise_for_status client_response_error resp);
    [|reflexivity].
  cbn [bind]. destruct (text resp) as [html|e]; [|reflexivity].
  cbn [bind]. destruct (parse html) as [doc|e]; [|reflexivity].
  cbn [bind]. destruct (link_tasks urljoin url _); [|reflexivity].
  cbn [bind]. destruct (script_tasks urljoin url _); [|reflexivity].
  cbn [bind]. now rewrite gather_unchanged.
Qed.

Lemma primary_failure_raises (order : list task -> list task) (url : string) :
  (exists e, session_get url HTTP_TIMEOUT = Raise e) \/
  (exists resp, session_get url HTTP_TIMEOUT = Ok resp /\
                (400 <= status resp)%Z) ->
  exists e,
    fetch_and_combine_url_soup parse urljoin session_get
      client_response_error order url = Raise e.
Proof.
  intros [(e & H)|(resp & H & Hstatus)];
    unfold fetch_and_combine_url_soup; rewrite H; cbn [bind]; [eauto|].
  unfold raise_for_status. apply Z.leb_le in Hstatus. rewrite Hstatus.
  cbn [bind]. eauto.
Qed.

(** C6, amended.  An exception from the first request (a timeout, a
    connection error) or a response with status 400 or more is fatal:
    the pipeline raises, writes no output file, and the view answers
    with the plain error message instead of a download. *)
Theorem primary_fetch_failure_fatal (r : run) (url : string) :
  (exists e, session_get url HTTP_TIMEOUT = Raise e) \/
  (exists resp, session_get url HTTP_TIMEOUT = Ok resp /\
                (400 <= status resp)%Z) ->
  url <> "" ->
  exists e,
    fetch_and_combine_url parse decode urljoin session_get
      client_response_error r url = (Raise e, []) /\
    index parse decode urljoin session_get client_response_error
      secure_filename UPLOAD_FOLDER file_save r
      (Request "POST" None (Some url))
    = (Ok (Text ("An error occurred: " ++ exn_str e)), []).
Proof.
  intros Hfail Hurl.
  destruct (primary_failure_raises (completion_order r) url Hfail) as (e & He).
  exists e.
  assert (fetch_and_combine_url parse decode urljoin session_get
            client_response_error r url = (Raise e, [])) as H.
  { unfold fetch_and_combine_url. now rewrite He. }
  split; [exact H|].
  unfold index, uploaded_file, entered_url. cbn.
  destruct (String.eqb url "") eqn:E.
  - apply String.eqb_eq in E. contradiction.
  - unfold handle_url. now rewrite H.
Qed.

Lemma combine_soup_any_dir (top1 top2 : path) (a : archive) :
  combine_html_from_zip_soup parse top1 a
  = combine_html_from_zip_soup parse top2 a.
Proof.
  destruct a as [t|e]; [|reflexivity]. now rewrite !combine_soup_tree.
Qed.

(** C8. The bytes written are fixed by the input alone.  Bundle mode:
    the same archive gives the same output whatever the extraction
    directory and the output name of the run.  URL mode: with a fixed
    fetch layer, the same address gives the same output whatever the
    order in which the gathered tasks complete and whatever the
    output name. *)
Theorem structural_determinism :
  (forall (r1 r2 : run) (a : archive),
      map snd (snd (combine_html_from_zip parse decode r1 a))
      = map snd (snd (combine_html_from_zip parse decode r2 a))) /\
  (forall (r1 r2 : run) (url : string),
      map snd (snd (fetch_and_combine_url parse decode urljoin session_get
                      client_response_error r1 url))
      = map snd (snd (fetch_and_combine_url parse decode urljoin session_get
                        client_response_error r2 url))).
Proof.
  split.
  - intros r1 r2 a. unfold combine_html_from_zip.
    rewrite (combine_soup_any_dir (extract_path r1) (extract_path r2)).
    now destruct (combine_html_from_zip_soup parse (extract_path r2) a).
  - intros r1 r2 url. unfold fetch_and_combine_url.
    rewrite !fetch_soup_as_parsed.
    match goal with |- context [match ?c with _ => _ end] => now destruct c end.
Qed.

End RemoteClaims.

(** * The pipelines at work *)

(** C1. The stub server answers 200 with [body{color:red}] for [a.css],
    the task for the [<link>] is created, and yet the document that is
    written still has the [<link>] and no [style] tag: the document the
    pipeline ends with is the one it parsed, not the one in which the
    [<link>] is replaced. *)
Theorem fetched_stylesheet_not_inlined :
  link_tasks Demo.urljoin "http://site/"
    (find_all "link" "href" Demo.link_page)
  = Ok [Task "http://site/a.css" [0; 0] "href" "style"] /\
  Demo.session_get "http://site/a.css" HTTP_TIMEOUT
  = Ok (Response 200 (Ok "body{color:red}")) /\
  fetch_and_inline Demo.session_get Demo.link_page "http://site/a.css"
    [0; 0] "href" "style"
  = Demo.link_page /\
  fetch_and_combine_url_soup Demo.parse Demo.urljoin Demo.session_get
    Demo.client_response_error (fun tasks => tasks) "http://site/"
  = Ok [Tag "head" [] [Demo.link_tag]] /\
  count "style" [Tag "head" [] [Demo.link_tag]] = 0 /\
  replace_with [0; 0] (new_tag "style" "body{color:red}") Demo.link_page
  = [Tag "head" [] [new_tag "style" "body{color:red}"]] /\
  fetch_and_combine_url Demo.parse Demo.decode Demo.urljoin Demo.session_get
    Demo.client_response_error Demo.first_run "http://site/"
  = (Ok ["tmp"; "out1.html"],
     [(["tmp"; "out1.html"],
       "<head><link rel='stylesheet' href='a.css'></link></head>")]).
Proof. repeat split; reflexivity. Qed.

(** C2. Two references, [a.css] answered with 200 and [b.js] timing
    out.  The request succeeds and the [<script>] of the failed fetch is
    untouched, but the [<link>] of the successful fetch is untouched as
    well: nothing is inlined. *)
Theorem isolation_nothing_inlined :
  link_tasks Demo.urljoin "http://site/two/"
    (find_all "link" "href" Demo.two_page)
  = Ok [Task "http://site/two/a.css" [0; 0] "href" "style"] /\
  script_tasks Demo.urljoin "http://site/two/"
    (find_all "script" "src" Demo.two_page)
  = Ok [Task "http://site/two/b.js" [0; 1] "src" "script"] /\
  Demo.session_get "http://site/two/a.css" HTTP_TIMEOUT
  = Ok (Response 200 (Ok "body{color:red}")) /\
  Demo.session_get "http://site/two/b.js" HTTP_TIMEOUT
  = Raise Demo.timed_out /\
  fetch_and_combine_url_soup Demo.parse Demo.urljoin Demo.session_get
    Demo.client_response_error (fun tasks => tasks) "http://site/two/"
  = Ok [Tag "head" [] [Demo.link_tag; Demo.script_tag]] /\
  count "style" [Tag "head" [] [Demo.link_tag; Demo.script_tag]] = 0 /\
  fst (index Demo.parse Demo.decode Demo.urljoin Demo.session_get
         Demo.client_response_error Demo.secure_filename Demo.UPLOAD_FOLDER
         Demo.file_save Demo.first_run
         (Request "POST" None (Some "http://site/two/")))
  = Ok (SendFile ["tmp"; "out1.html"] "combined_from_url.html").
Proof. repeat split; reflexivity. Qed.


Lemma no_html_no_artifact_witness :
  combine_html_from_zip Demo.parse Demo.decode Demo.first_run
    (Zip Demo.no_document)
  = (Raise no_html_file, []).
Proof.
  apply (no_html_no_artifact Demo.parse Demo.decode Demo.secure_filename
           Demo.UPLOAD_FOLDER Demo.file_save Demo.first_run Demo.no_document).
  reflexivity.
Defined.


Lemma unreadable_asset_fatal_witness :
  exists e,
    combine_html_from_zip Demo.parse Demo.decode Demo.first_run
      (Zip Demo.locked_css) = (Raise e, []) /\
    forall file,
      data file = Zip Demo.locked_css ->
      Demo.file_save (Demo.UPLOAD_FOLDER ++ [Demo.secure_filename (filename file)])
      = Ok tt ->
      handle_upload Demo.parse Demo.decode Demo.secure_filename
        Demo.UPLOAD_FOLDER Demo.file_save Demo.first_run file
      = (Ok (Text ("An error occurred: " ++ exn_str e)), []).
Proof.
  apply (unreadable_asset_fatal Demo.parse Demo.decode Demo.secure_filename
           Demo.UPLOAD_FOLDER Demo.file_save Demo.first_run Demo.locked_css
           ["site.css"] Demo.denied).
  - left. reflexivity.
  - reflexivity.
Defined.

Lemma missing_container_fatal_witness :
  exists e,
    combine_html_from_zip Demo.parse Demo.decode Demo.first_run
      (Zip Demo.headless) = (Raise e, []) /\
    (e = none_has_no_append \/
     exists p,
       In p (files_with_ext ".css" Demo.headless
             ++ files_with_ext ".js" Demo.headless) /\
       content Demo.headless p = Raise e) /\
    forall file,
      data file = Zip Demo.headless ->
      Demo.file_save (Demo.UPLOAD_FOLDER ++ [Demo.secure_filename (filename file)])
      = Ok tt ->
      handle_upload Demo.parse Demo.decode Demo.secure_filename
        Demo.UPLOAD_FOLDER Demo.file_save Demo.first_run file
      = (Ok (Text ("An error occurred: " ++ exn_str e)), []).
Proof.
  apply (missing_container_fatal Demo.parse Demo.decode Demo.secure_filename
           Demo.UPLOAD_FOLDER Demo.file_save Demo.first_run Demo.headless
           ["index.html"] Demo.bare_html Demo.bare).
  - reflexivity.
  - reflexivity.
  - reflexivity.
  - left. split; [reflexivity|discriminate].
Defined.

(** C6 as stated fails: the first request is answered with status 300,
    which is not a 2xx status, and the request ends in a download of
    the body parsed as the document. *)
Lemma primary_300_is_downloaded :
  Demo.session_get "http://site/choices" HTTP_TIMEOUT
  = Ok (Response 300 (Ok Demo.page_html)) /\
  index Demo.parse Demo.decode Demo.urljoin Demo.session_get
    Demo.client_response_error Demo.secure_filename Demo.UPLOAD_FOLDER
    Demo.file_save Demo.first_run
    (Request "POST" None (Some "http://site/choices"))
  = (Ok (SendFile ["tmp"; "out1.html"] "combined_from_url.html"),
     [(["tmp"; "out1.html"], "<html><head></head><body></body></html>")]) /\
  ~ (forall url resp,
        Demo.session_get url HTTP_TIMEOUT = Ok resp ->
        (status resp < 200 \/ 300 <= status resp)%Z ->
        exists e,
          fetch_and_combine_url Demo.parse Demo.decode Demo.urljoin
            Demo.session_get Demo.client_response_error Demo.first_run url
          = (Raise e, [])).
Proof.
  split; [reflexivity|]. split; [reflexivity|].
  intros H.
  destruct (H "http://site/choices" (Response 300 (Ok Demo.page_html))
              eq_refl ltac:(right; simpl; lia)) as (e & He).
  discriminate He.
Qed.

Lemma primary_fetch_failure_fatal_witness :
  exists e,
    fetch_and_combine_url Demo.parse Demo.decode Demo.urljoin Demo.session_get
      Demo.client_response_error Demo.first_run "http://site/missing"
    = (Raise e, []) /\
    index Demo.parse Demo.decode Demo.urljoin Demo.session_get
      Demo.client_response_error Demo.secure_filename Demo.UPLOAD_FOLDER
      Demo.file_save Demo.first_run
      (Request "POST" None (Some "http://site/missing"))
    = (Ok (Text ("An error occurred: " ++ exn_str e)), []).
Proof.
  apply (primary_fetch_failure_fatal Demo.parse Demo.decode Demo.urljoin
           Demo.session_get Demo.client_response_error Demo.secure_filename
           Demo.UPLOAD_FOLDER Demo.file_save Demo.first_run
           "http://site/missing").
  - right. exists (Response 404 (Ok "not found")). split; [reflexivity|].
    simpl. lia.
  - discriminate.
Defined.


(** * Further properties of the pipelines *)

(** ** Discovery in the bundle *)

(** X1. The comprehension over [os.walk] that collects the asset paths
    lists exactly the files of the tree whose name ends in the
    extension, each once, in traversal order (a directory's own files
    before those of its sub-directories), under the extraction
    directory. *)
Theorem asset_paths_are_tree_files (ext : string) (top : path) (t : tree) :
  files_ending ext (os_walk top t)
  = map (app top) (filter (has_ext ext) (tree_files t)).
Proof. apply files_ending_walk. Qed.

Lemma first_html_in_split (root : path) (l1 l2 : list string) (f : string) :
  Forall (fun g => endswith g ".html" = false) l1 ->
  endswith f ".html" = true ->
  first_html_in root (l1 ++ f :: l2) = Some (root ++ [f]).
Proof.
  intros H Hf. induction H as [|g l1 Hg _ IH]; simpl.
  - now rewrite Hf.
  - now rewrite Hg.
Qed.

Lemma first_html_in_none (root : path) (l : list string) :
  Forall (fun g => endswith g ".html" = false) l ->
  first_html_in root l = None.
Proof.
  induction 1 as [|g l Hg _ IH]; simpl; [reflexivity|]. now rewrite Hg.
Qed.

(** X2. A document in the top directory wins over any document in a
    sub-directory: the first [.html] name among the files of the top
    directory is selected; only when the top directory has none does
    the search go on, through the sub-directories in order. *)
Theorem top_level_document_first (top : path)
  (ds : list (string * tree)) (fs : list (string * file_data)) :
  (forall l1 f l2,
      map fst fs = l1 ++ f :: l2 ->
      Forall (fun g => endswith g ".html" = false) l1 ->
      endswith f ".html" = true ->
      find_html (os_walk top (Dir ds fs)) = Some (top ++ [f])) /\
  (Forall (fun g => endswith g ".html" = false) (map fst fs) ->
   find_html (os_walk top (Dir ds fs))
   = find_html (flat_map (fun d => os_walk (top ++ [fst d]) (snd d)) ds)).
Proof.
  split.
  - intros l1 f l2 Hsplit Hl1 Hf. cbn [os_walk find_html].
    now rewrite Hsplit, (first_html_in_split top l1 l2 f Hl1 Hf).
  - intros Hnone. cbn [os_walk find_html].
    now rewrite (first_html_in_none top _ Hnone).
Qed.

(** ** The result of the bundle pipeline *)

Section InlineEachOrder.
Variables (t : tree) (container tag_name : string).


End InlineEachOrder.


(** *** A document that only grows *)

Lemma grows_all_refl (l : list node) :
  Forall (fun n => grows n n) l -> Forall2 grows l l.
Proof. induction 1; constructor; assumption. Qed.

Lemma grows_refl (n : node) : grows n n.
Proof.
  induction n as [nm a ch IH|s] using node_rect'; [|constructor].
  pose proof (grows_tag nm a ch ch [] (grows_all_refl ch IH)) as G.
  now rewrite app_nil_r in G.
Qed.

Lemma grows_list_refl (l : list node) : Forall2 grows l l.
Proof. apply grows_all_refl, Forall_forall. intros n _. apply grows_refl. Qed.

Lemma grows_list_trans_in (l1 l2 : list node) :
  Forall (fun x => forall y z, grows x y -> grows y z -> grows x z) l1 ->
  Forall2 grows l1 l2 ->
  forall l3, Forall2 grows l2 l3 -> Forall2 grows l1 l3.
Proof.
  intros IH H12. induction H12 as [|x y l1 l2 Hxy _ IHl]; intros l3 H23.
  - inversion H23. constructor.
  - inversion H23 as [|y' z l2' l3' Hyz Hrest]; subst.
    inversion IH as [|x' l1' Hx Hl1]; subst.
    constructor; [eapply Hx; eauto|]. apply IHl; assumption.
Qed.

Lemma grows_trans (x : node) :
  forall y z, grows x y -> grows y z -> grows x z.
Proof.
  induction x as [nm a ch IH|s] using node_rect'; intros y z Hxy Hyz.
  - inversion Hxy as [|nm1 a1 ch1 ch' added H1]; subst.
    inversion Hyz as [|nm2 a2 ch2 ch'' added' H2]; subst.
    apply Forall2_app_inv_l in H2.
    destruct H2 as (l1 & l2 & H21 & _ & ->).
    rewrite <- app_assoc. apply grows_tag.
    apply (grows_list_trans_in ch ch' IH H1 l1 H21).
  - inversion Hxy; subst. exact Hyz.
Qed.

Lemma grows_list_trans (l1 l2 l3 : list node) :
  Forall2 grows l1 l2 -> Forall2 grows l2 l3 -> Forall2 grows l1 l3.
Proof.
  intros H12 H23. apply (grows_list_trans_in l1 l2); [|assumption..].
  apply Forall_forall. intros x _. apply grows_trans.
Qed.

Lemma grows_list_update (name : string) (child : node) (l l' : list node) :
  Forall (fun x => forall x', append_from name child x = Some x' ->
                              grows x x') l ->
  first_update (append_from name child) l = Some l' ->
  Forall2 grows l l'.
Proof.
  intros IH Happ.
  destruct (first_update_some _ _ _ Happ)
    as (l1 & x & x' & l2 & -> & -> & Hx & _).
  rewrite Forall_forall in IH. specialize (IH x (in_elt x l1 l2) x' Hx).
  apply Forall2_app; [apply grows_list_refl|].
  constructor; [exact IH|apply grows_list_refl].
Qed.

Lemma append_from_grows (name : string) (child : node) (n : node) :
  forall n', append_from name child n = Some n' -> grows n n'.
Proof.
  induction n as [nm a ch IH|s] using node_rect'; intros n' Happ;
    [|discriminate].
  simpl in Happ. destruct (String.eqb nm name).
  - injection Happ as <-. apply grows_tag, grows_list_refl.
  - destruct (first_update (append_from name child) ch) as [ch1|] eqn:E1;
      [|discriminate].
    injection Happ as <-.
    pose proof (grows_tag nm a ch ch1 []
                  (grows_list_update name child ch ch1 IH E1)) as G.
    now rewrite app_nil_r in G.
Qed.

(** An append leaves every node of the document where it was. *)
Lemma append_grows (name : string) (child : node) (doc doc' : soup) :
  first_update (append_from name child) doc = Some doc' ->
  Forall2 grows doc doc'.
Proof.
  apply grows_list_update, Forall_forall.
  intros x _. apply append_from_grows.
Qed.

Lemma inline_each_grows (top : path) (t : tree) (container tag_name : string)
  (paths : list path) :
  forall doc doc',
    inline_each top t container tag_name paths doc = Ok doc' ->
    Forall2 grows doc doc'.
Proof.
  induction paths as [|p paths IH]; intros doc doc' H.
  - injection H as <-. apply grows_list_refl.
  - destruct (inline_each_step _ _ _ _ _ _ _ _ H) as (text & doc1 & _ & U & L).
    apply (grows_list_trans doc doc1 doc'); [|eauto].
    eapply append_grows; eauto.
Qed.

Section BundleResults.
Variable parse : string -> result soup.
Variable decode : soup -> string.






(** X6. The bundle pipeline only adds.  The resulting document is the
    parsed one with nodes added at the end of the contents of some
    tags: every node of the parsed document is still there, at the
    same place, with its name and attributes (or its text), so no
    [<link>] or [<script>] is removed or replaced.  For every tag name
    the number of tags is the old one, plus the number of [.css] files
    for [style] and the number of [.js] files for [script]. *)
Theorem bundle_only_adds (r : run) (t : tree) (rel : path) (html : string)
  (doc doc' : soup) :
  hd_error (files_with_ext ".html" t) = Some rel ->
  content t rel = Ok html ->
  parse html = Ok doc ->
  combine_html_from_zip_soup parse (extract_path r) (Zip t) = Ok doc' ->
  Forall2 grows doc doc' /\
  forall name,
    count name doc'
    = count name doc
      + (if String.eqb "style" name
         then List.length (files_with_ext ".css" t) else 0)
      + (if String.eqb "script" name
         then List.length (files_with_ext ".js" t) else 0).
Proof.
  intros Hfirst Hread Hparse H.
  rewrite combine_soup_tree, Hfirst, Hread in H. cbn [bind] in H.
  rewrite Hparse in H. cbn [bind] in H.
  destruct (inline_each [] t "head" "style" (files_with_ext ".css" t)
              doc) as [doc1|e] eqn:L1; [|discriminate].
  cbn [bind] in H. split.
  - apply (grows_list_trans doc doc1 doc'); eapply inline_each_grows; eauto.
  - intros name.
    now rewrite (inline_each_count _ _ _ _ name _ _ _ H),
      (inline_each_count _ _ _ _ name _ _ _ L1).
Qed.
End BundleResults.

(** ** References and tasks of the remote pipeline *)

Lemma in_flat_mapi {A B} (f : nat -> A -> list B) (y : B) (l : list A) :
  forall k,
    In y (flat_mapi f k l) <->
    exists i x, nth_error l i = Some x /\ In y (f (k + i) x).
Proof.
  induction l as [|x l IH]; intros k; simpl.
  - split; [contradiction|]. intros ([|i] & x & H & _); discriminate.
  - rewrite in_app_iff, IH. split.
    + intros [H|(i & x' & Hn & H)].
      * exists 0, x. rewrite Nat.add_0_r. auto.
      * exists (S i), x'. rewrite Nat.add_succ_r. auto.
    + intros ([|i] & x' & Hn & H); simpl in Hn.
      * injection Hn as <-. rewrite Nat.add_0_r in H. now left.
      * right. exists i, x'. rewrite Nat.add_succ_r in H. auto.
Qed.

Lemma node_at_cons (i : nat) (rest : position) (l : list node) (c : node) :
  nth_error l i = Some c -> node_at (i :: rest) l = node_below rest c.
Proof.
  intros H. cbn [node_at]. rewrite H. destruct rest, c; reflexivity.
Qed.

Lemma find_all_from_sound (name key : string) (n : node) :
  forall here pos a,
    In (pos, a) (find_all_from name key here n) ->
    exists rest ch,
      pos = here ++ rest /\ node_below rest n = Some (Tag name a ch) /\
      has_attr key a = true.
Proof.
  induction n as [nm a0 ch0 IH|s] using node_rect'; intros here pos a Hin;
    [|contradiction].
  cbn [find_all_from] in Hin. apply in_app_or in Hin.
  destruct Hin as [Hin|Hin].
  - destruct (String.eqb nm name) eqn:En; [|contradiction].
    destruct (has_attr key a0) eqn:Ea; [|contradiction].
    destruct Hin as [Hin|[]]. injection Hin as <- <-.
    apply String.eqb_eq in En. subst nm.
    exists [], ch0. rewrite app_nil_r. auto.
  - apply in_flat_mapi in Hin. destruct Hin as (i & c & Hn & Hin).
    rewrite Forall_forall in IH.
    destruct (IH c (nth_error_In _ _ Hn) _ _ _ Hin)
      as (rest & ch & -> & Hbelow & Ha).
    exists (i :: rest), ch. rewrite <- app_assoc. repeat split; auto.
    cbn [node_below]. rewrite (node_at_cons i rest ch0 c Hn). exact Hbelow.
Qed.

Lemma find_all_sound (name key : string) (doc : soup) (pos : position)
  (a : list (string * attr_value)) :
  In (pos, a) (find_all name key doc) ->
  exists ch, node_at pos doc = Some (Tag name a ch) /\ has_attr key a = true.
Proof.
  intros Hin. apply in_flat_mapi in Hin. destruct Hin as (i & c & Hn & Hin).
  destruct (find_all_from_sound name key c _ _ _ Hin)
    as (rest & ch & -> & Hbelow & Ha).
  exists ch. split; [|exact Ha].
  change ([0 + i] ++ rest) with (i :: rest).
  now rewrite (node_at_cons i rest doc c Hn).
Qed.

Section Tasks.
Variable urljoin : string -> attr_value -> result string.

Lemma link_tasks_spec (url : string)
  (links : list (position * list (string * attr_value))) :
  forall tasks,
    link_tasks urljoin url links = Ok tasks ->
    map task_tag tasks = map fst (filter is_stylesheet_link links) /\
    forall k, In k tasks ->
      exists a href,
        In (task_tag k, a) links /\ get_attr "href" a = Some href /\
        attr_contains "stylesheet" (rel_of a) = true /\
        urljoin url href = Ok (task_url k) /\ task_tag_name k = "style".
Proof.
  induction links as [|[pos a] links IH]; intros tasks H.
  - injection H as <-. split; [reflexivity|contradiction].
  - cbn [link_tasks] in H.
    destruct (get_attr "href" a) as [href|] eqn:Eh; [|discriminate].
    cbn [filter]. unfold is_stylesheet_link at 1. cbn [snd].
    destruct (attr_contains "stylesheet" (rel_of a)) eqn:Er.
    + destruct (urljoin url href) as [css_url|e] eqn:Eu; [|discriminate].
      cbn [bind] in H.
      destruct (link_tasks urljoin url links) as [rest|e]; [|discriminate].
      cbn [bind] in H. injection H as <-.
      destruct (IH rest eq_refl) as (Hpos & Hall). split.
      * cbn. now rewrite Hpos.
      * intros k [<-|Hk].
        -- exists a, href. cbn. auto 6.
        -- destruct (Hall k Hk) as (a' & href' & Hin & Hrest).
           exists a', href'. split; [now right|exact Hrest].
    + destruct (IH tasks H) as (Hpos & Hall). split; [exact Hpos|].
      intros k Hk. destruct (Hall k Hk) as (a' & href' & Hin & Hrest).
      exists a', href'. split; [now right|exact Hrest].
Qed.

Lemma script_tasks_spec (url : string)
  (scripts : list (position * list (string * attr_value))) :
  forall tasks,
    script_tasks urljoin url scripts = Ok tasks ->
    map task_tag tasks = map fst scripts /\
    forall k, In k tasks ->
      exists a src,
        In (task_tag k, a) scripts /\ get_attr "src" a = Some src /\
        urljoin url src = Ok (task_url k) /\ task_tag_name k = "script".
Proof.
  induction scripts as [|[pos a] scripts IH]; intros tasks H.
  - injection H as <-. split; [reflexivity|contradiction].
  - cbn [script_tasks] in H.
    destruct (get_attr "src" a) as [src|] eqn:Eh; [|discriminate].
    destruct (urljoin url src) as [js_url|e] eqn:Eu; [|discriminate].
    cbn [bind] in H.
    destruct (script_tasks urljoin url scripts) as [rest|e]; [|discriminate].
    cbn [bind] in H. injection H as <-.
    destruct (IH rest eq_refl) as (Hpos & Hall). split.
    + cbn. now rewrite Hpos.
    + intros k [<-|Hk].
      * exists a, src. cbn. auto 6.
      * destruct (Hall k Hk) as (a' & src' & Hin & Hrest).
        exists a', src'. split; [now right|exact Hrest].
Qed.

(** X7. Every task points into the document it was discovered in: the
    tag of a stylesheet task is a [<link>] of the parsed document with
    an [href] and [stylesheet] in its [rel], the tag of a script task is
    a [<script>] with a [src]; the address fetched is that attribute
    joined to the request address. *)
Theorem tasks_point_into_document (url : string) (doc : soup)
  (css js : list task) :
  link_tasks urljoin url (find_all "link" "href" doc) = Ok css ->
  script_tasks urljoin url (find_all "script" "src" doc) = Ok js ->
  (forall k, In k css ->
     exists a ch href,
       node_at (task_tag k) doc = Some (Tag "link" a ch) /\
       get_attr "href" a = Some href /\
       attr_contains "stylesheet" (rel_of a) = true /\
       urljoin url href = Ok (task_url k) /\ task_tag_name k = "style") /\
  (forall k, In k js ->
     exists a ch src,
       node_at (task_tag k) doc = Some (Tag "script" a ch) /\
       get_attr "src" a = Some src /\
       urljoin url src = Ok (task_url k) /\ task_tag_name k = "script").
Proof.
  intros Hcss Hjs. split; intros k Hk.
  - destruct (proj2 (link_tasks_spec url _ css Hcss) k Hk)
      as (a & href & Hin & Hrest).
    destruct (find_all_sound _ _ _ _ _ Hin) as (ch & Hat & _).
    exists a, ch, href. auto.
  - destruct (proj2 (script_tasks_spec url _ js Hjs) k Hk)
      as (a & src & Hin & Hrest).
    destruct (find_all_sound _ _ _ _ _ Hin) as (ch & Hat & _).
    exists a, ch, src. auto.
Qed.

(** X8. No reference is dropped or reordered: the stylesheet tasks are,
    in document order, the [<link href>] tags whose [rel] holds
    [stylesheet], one task each, and the script tasks are, in document
    order, the [<script src>] tags, one task each. *)
Theorem one_task_per_reference (url : string) (doc : soup)
  (css js : list task) :
  link_tasks urljoin url (find_all "link" "href" doc) = Ok css ->
  script_tasks urljoin url (find_all "script" "src" doc) = Ok js ->
  map task_tag css
  = map fst (filter is_stylesheet_link (find_all "link" "href" doc)) /\
  map task_tag js = map fst (find_all "script" "src" doc).
Proof.
  intros Hcss Hjs. split.
  - apply (proj1 (link_tasks_spec url _ css Hcss)).
  - apply (proj1 (script_tasks_spec url _ js Hjs)).
Qed.
End Tasks.

(** ** The outcome of the remote pipeline *)


Section RemoteOutcome.
Variable parse : string -> result soup.
Variable decode : soup -> string.
Variable urljoin : string -> attr_value -> result string.
Variable session_get : string -> Z -> result response.
Variable client_response_error : response -> exn.




(** X10. The answers of the asset fetches never reach the outcome: two
    fetch layers that agree on the first request give the same result
    and the same written bytes, so no asset failure aborts the request
    (and no asset content is written). *)
Theorem asset_fetches_do_not_matter
  (session_get' : string -> Z -> result response) (r : run) (url : string) :
  session_get' url HTTP_TIMEOUT = session_get url HTTP_TIMEOUT ->
  fetch_and_combine_url parse decode urljoin session_get'
    client_response_error r url
  = fetch_and_combine_url parse decode urljoin session_get
      client_response_error r url.
Proof.
  intros Hsame. unfold fetch_and_combine_url.
  now rewrite !fetch_soup_as_parsed, Hsame.
Qed.

Lemma script_tasks_raise (url : string)
  (scripts : list (position * list (string * attr_value)))
  (pos : position) (a : list (string * attr_value)) (src : attr_value)
  (e0 : exn) :
  In (pos, a) scripts -> get_attr "src" a = Some src ->
  urljoin url src = Raise e0 ->
  exists e, script_tasks urljoin url scripts = Raise e.
Proof.
  intros Hin Hsrc Hjoin.
  induction scripts as [|[pos' a'] scripts IH]; [contradiction|].
  cbn [script_tasks]. destruct Hin as [Hin|Hin].
  - injection Hin as -> ->. rewrite Hsrc, Hjoin. cbn [bind]. eauto.
  - destruct (get_attr "src" a'); [|eauto].
    destruct (urljoin url a0); cbn [bind]; [|eauto].
    destruct (IH Hin) as (e & ->). cbn [bind]. eauto.
Qed.

Lemma link_tasks_raise (url : string)
  (links : list (position * list (string * attr_value)))
  (pos : position) (a : list (string * attr_value)) (href : attr_value)
  (e0 : exn) :
  In (pos, a) links -> get_attr "href" a = Some href ->
  attr_contains "stylesheet" (rel_of a) = true ->
  urljoin url href = Raise e0 ->
  exists e, link_tasks urljoin url links = Raise e.
Proof.
  intros Hin Hhref Hrel Hjoin.
  induction links as [|[pos' a'] links IH]; [contradiction|].
  cbn [link_tasks]. destruct Hin as [Hin|Hin].
  - injection Hin as -> ->. rewrite Hhref, Hrel, Hjoin. cbn [bind]. eauto.
  - destruct (IH Hin) as (e & He).
    destruct (get_attr "href" a'); [|eauto].
    destruct (attr_contains "stylesheet" (rel_of a')); [|eauto].
    destruct (urljoin url a0); cbn [bind]; [|eauto].
    rewrite He. cbn [bind]. eauto.
Qed.

(** X11. Joining a reference to the address happens outside the [try]
    of the tasks: one stylesheet link or one script whose reference
    makes [urljoin] raise is fatal for the whole request, and nothing is
    written. *)
Theorem unjoinable_reference_fatal (r : run) (url : string)
  (resp : response) (html : string) (doc : soup) (pos : position)
  (a : list (string * attr_value)) (ref : attr_value) (e0 : exn) :
  session_get url HTTP_TIMEOUT = Ok resp ->
  text resp = Ok html ->
  parse html = Ok doc ->
  (In (pos, a) (find_all "link" "href" doc) /\
   get_attr "href" a = Some ref /\
   attr_contains "stylesheet" (rel_of a) = true) \/
  (In (pos, a) (find_all "script" "src" doc) /\
   get_attr "src" a = Some ref) ->
  urljoin url ref = Raise e0 ->
  exists e,
    fetch_and_combine_url parse decode urljoin session_get
      client_response_error r url = (Raise e, []).
Proof.
  intros Hget Htext Hparse Href Hjoin.
  assert (exists e,
            fetch_and_combine_url_soup parse urljoin session_get
              client_response_error (completion_order r) url = Raise e)
    as (e & He).
  { rewrite fetch_soup_as_parsed, Hget. cbn [bind].
    destruct (raise_for_status client_response_error resp); cbn [bind];
      [|eauto].
    rewrite Htext. cbn [bind]. rewrite Hparse. cbn [bind].
    destruct Href as [(Hin & Hhref & Hrel)|(Hin & Hsrc)].
    - destruct (link_tasks_raise url _ _ _ _ _ Hin Hhref Hrel Hjoin)
        as (e & ->). cbn [bind]. eauto.
    - destruct (link_tasks urljoin url _); cbn [bind]; [|eauto].
      destruct (script_tasks_raise url _ _ _ _ _ Hin Hsrc Hjoin) as (e & ->).
      cbn [bind]. eauto. }
  exists e. unfold fetch_and_combine_url. now rewrite He.
Qed.
End RemoteOutcome.

(** ** The view *)

Section View.
Variable parse : string -> result soup.
Variable decode : soup -> string.
Variable urljoin : string -> attr_value -> result string.
Variable session_get : string -> Z -> result response.
Variable client_response_error : response -> exn.
Variable secure_filename : string -> string.
Variable UPLOAD_FOLDER : path.
Variable file_save : path -> result unit.

End View.

(** ** Names and extensions *)

Lemma substring_all (s : string) : substring 0 (String.length s) s = s.
Proof. induction s as [|c s IH]; simpl; [reflexivity|now rewrite IH]. Qed.

Lemma substring_skip (pre suf : string) :
  substring (String.length pre) (String.length suf) (pre ++ suf)%string = suf.
Proof.
  induction pre as [|c pre IH]; simpl; [apply substring_all|exact IH].
Qed.

Lemma append_length (s1 s2 : string) :
  String.length (s1 ++ s2)%string = String.length s1 + String.length s2.
Proof. induction s1 as [|c s1 IH]; simpl; [reflexivity|now rewrite IH]. Qed.

Lemma substring_split (s : string) :
  forall m, m <= String.length s ->
    s = (substring 0 m s ++ substring m (String.length s - m) s)%string.
Proof.
  induction s as [|c s IH]; intros m Hm.
  - destruct m; reflexivity.
  - destruct m as [|m]; simpl.
    + now rewrite substring_all.
    + f_equal. apply IH. simpl in Hm. lia.
Qed.

Lemma endswith_iff (s suffix : string) :
  endswith s suffix = true <-> exists stem, s = (stem ++ suffix)%string.
Proof.
  unfold endswith. rewrite andb_true_iff, Nat.leb_le, String.eqb_eq. split.
  - intros (Hle & Hsub).
    exists (substring 0 (String.length s - String.length suffix) s).
    assert (String.length s - String.length suffix <= String.length s)
      as Hm by lia.
    pose proof (substring_split s _ Hm) as E.
    replace (String.length s - (String.length s - String.length suffix))
      with (String.length suffix) in E by lia.
    now rewrite Hsub in E.
  - intros (stem & ->). rewrite append_length. split; [lia|].
    replace (String.length stem + String.length suffix - String.length suffix)
      with (String.length stem) by lia.
    apply substring_skip.
Qed.

(** X13. Discovery goes by the end of the file name alone: the paths
    taken for an extension are the files of the tree whose name is some
    string, possibly empty, followed by the extension. *)
Theorem discovered_by_suffix (ext : string) (top : path) (t : tree) (p : path) :
  In p (files_ending ext (os_walk top t)) <->
  exists rel stem,
    p = top ++ rel /\ In rel (tree_files t) /\
    basename rel = (stem ++ ext)%string.
Proof.
  rewrite files_ending_walk, in_map_iff. unfold files_with_ext. split.
  - intros (rel & <- & Hin). apply filter_In in Hin.
    destruct Hin as (Hin & Hext). apply endswith_iff in Hext.
    destruct Hext as (stem & Hstem). eauto.
  - intros (rel & stem & -> & Hin & Hstem). exists rel. split; [reflexivity|].
    apply filter_In. split; [exact Hin|]. apply endswith_iff. eauto.
Qed.

(** ** What the bundle pipeline keeps *)

Section BundleKeeps.
Variable parse : string -> result soup.

(** X14. The bundle pipeline keeps what the document had: every node of
    the parsed document that holds neither the head nor the body is a
    node of the written document, unchanged. *)
Theorem bundle_keeps_nodes (r : run) (t : tree) (rel : path) (html : string)
  (doc doc' : soup) (x : node) :
  hd_error (files_with_ext ".html" t) = Some rel ->
  content t rel = Ok html ->
  parse html = Ok doc ->
  combine_html_from_zip_soup parse (extract_path r) (Zip t) = Ok doc' ->
  occurs x doc ->
  find_from "head" x = None ->
  find_from "body" x = None ->
  occurs x doc'.
Proof.
  intros Hfirst Hread Hparse H Hocc Hhead Hbody.
  rewrite combine_soup_tree, Hfirst, Hread in H. cbn [bind] in H.
  rewrite Hparse in H. cbn [bind] in H.
  destruct (inline_each [] t "head" "style" (files_with_ext ".css" t)
              doc) as [doc1|e] eqn:L1; [|discriminate].
  cbn [bind] in H.
  apply (inline_each_keeps _ _ _ _ x _ Hbody _ _ H).
  apply (inline_each_keeps _ _ _ _ x _ Hhead _ _ L1 Hocc).
Qed.
End BundleKeeps.

(** ** The further properties at work *)

Lemma top_level_document_first_witness :
  find_html (os_walk ["tmp"; "extract1"] Demo.site)
  = Some (["tmp"; "extract1"] ++ ["index.html"]).
Proof.
  apply (proj1 (top_level_document_first ["tmp"; "extract1"]
                  (subdirs_of Demo.site) (files_of Demo.site))
           [] "index.html" []).
  - reflexivity.
  - constructor.
  - reflexivity.
Defined.




Lemma bundle_only_adds_witness :
  Forall2 grows Demo.page
    [Tag "html" []
       [Tag "head" [] [Tag "style" [] [NavigableString "body{color:red}"]];
        Tag "body" [] [Tag "script" [] [NavigableString "alert(1)"]]]] /\
  forall name,
    count name
      [Tag "html" []
         [Tag "head" [] [Tag "style" [] [NavigableString "body{color:red}"]];
          Tag "body" [] [Tag "script" [] [NavigableString "alert(1)"]]]]
    = count name Demo.page
      + (if String.eqb "style" name
         then List.length (files_with_ext ".css" Demo.site) else 0)
      + (if String.eqb "script" name
         then List.length (files_with_ext ".js" Demo.site) else 0).
Proof.
  apply (bundle_only_adds Demo.parse Demo.first_run Demo.site ["index.html"]
           Demo.page_html Demo.page); reflexivity.
Defined.

Lemma tasks_point_into_document_witness :
  (forall k, In k [Task "http://site/two/a.css" [0; 0] "href" "style"] ->
     exists a ch href,
       node_at (task_tag k) Demo.two_page = Some (Tag "link" a ch) /\
       get_attr "href" a = Some href /\
       attr_contains "stylesheet" (rel_of a) = true /\
       Demo.urljoin "http://site/two/" href = Ok (task_url k) /\
       task_tag_name k = "style") /\
  (forall k, In k [Task "http://site/two/b.js" [0; 1] "src" "script"] ->
     exists a ch src,
       node_at (task_tag k) Demo.two_page = Some (Tag "script" a ch) /\
       get_attr "src" a = Some src /\
       Demo.urljoin "http://site/two/" src = Ok (task_url k) /\
       task_tag_name k = "script").
Proof.
  apply (tasks_point_into_document Demo.urljoin "http://site/two/"
           Demo.two_page); reflexivity.
Defined.

Lemma one_task_per_reference_witness :
  map task_tag [Task "http://site/two/a.css" [0; 0] "href" "style"]
  = map fst (filter is_stylesheet_link (find_all "link" "href" Demo.two_page))
  /\
  map task_tag [Task "http://site/two/b.js" [0; 1] "src" "script"]
  = map fst (find_all "script" "src" Demo.two_page).
Proof.
  apply (one_task_per_reference Demo.urljoin "http://site/two/"
           Demo.two_page); reflexivity.
Defined.


Lemma asset_fetches_do_not_matter_witness :
  fetch_and_combine_url Demo.parse Demo.decode Demo.urljoin
    (fun url _ =>
       if String.eqb url "http://site/"
       then Ok (Response 200 (Ok Demo.link_html))
       else Ok (Response 500 (Raise Demo.timed_out)))
    Demo.client_response_error Demo.first_run "http://site/"
  = fetch_and_combine_url Demo.parse Demo.decode Demo.urljoin
      Demo.session_get Demo.client_response_error Demo.first_run
      "http://site/".
Proof.
  apply (asset_fetches_do_not_matter Demo.parse Demo.decode Demo.urljoin
           Demo.session_get Demo.client_response_error).
  reflexivity.
Defined.

Lemma unjoinable_reference_fatal_witness :
  exists e,
    fetch_and_combine_url Demo.parse Demo.decode
      (fun _ _ => Raise (Exception "ValueError" "Invalid IPv6 URL"))
      Demo.session_get Demo.client_response_error Demo.first_run
      "http://site/"
    = (Raise e, []).
Proof.
  apply (unjoinable_reference_fatal Demo.parse Demo.decode
           (fun _ _ => Raise (Exception "ValueError" "Invalid IPv6 URL"))
           Demo.session_get Demo.client_response_error Demo.first_run
           "http://site/" (Response 200 (Ok Demo.link_html)) Demo.link_html
           Demo.link_page [0; 0]
           [("rel", AttrList ["stylesheet"]); ("href", AttrStr "a.css")]
           (AttrStr "a.css")
           (Exception "ValueError" "Invalid IPv6 URL")).
  - reflexivity.
  - reflexivity.
  - reflexivity.
  - left. split; [now left|]. split; reflexivity.
  - reflexivity.
Defined.

Lemma discovered_by_suffix_witness :
  In (["tmp"; "extract1"] ++ ["css"; "site.css"])
    (files_ending ".css" (os_walk ["tmp"; "extract1"] Demo.site)).
Proof.
  apply (proj2 (discovered_by_suffix ".css" ["tmp"; "extract1"] Demo.site
                  (["tmp"; "extract1"] ++ ["css"; "site.css"]))).
  exists ["css"; "site.css"], "site".
  split; [reflexivity|]. split; [|reflexivity].
  right. left. reflexivity.
Defined.

Lemma bundle_keeps_nodes_witness :
  occurs (Tag "title" [] [NavigableString "Home"])
    [Tag "head" []
       [Tag "title" [] [NavigableString "Home"];
        new_tag "style" "body{color:red}"];
     Tag "body" [] [new_tag "script" "alert(1)"]].
Proof.
  apply (bundle_keeps_nodes
           (fun _ =>
              Ok [Tag "head" [] [Tag "title" [] [NavigableString "Home"]];
                  Tag "body" [] []])
           Demo.first_run Demo.site ["index.html"] Demo.page_html
           [Tag "head" [] [Tag "title" [] [NavigableString "Home"]];
            Tag "body" [] []]).
  - reflexivity.
  - reflexivity.
  - reflexivity.
  - reflexivity.
  - left. right. left. left. reflexivity.
  - reflexivity.
  - reflexivity.
Defined.
